(** * PhishShield: the URL heuristic scoring engine of [UrlScanner.tsx]

    A shallow embedding of [analyzeUrl] and [handleScan] (first, richer
    variant of the component) together with the properties of the scoring
    engine: score bounds, the risk level along the rule battery, the
    parse-failure path, the threat/warning pairing and a few concrete scans.

    JavaScript strings are sequences of UTF-16 code units; they are modelled
    as [list N].  The two platform services whose full behaviour is outside
    the repository, the URL parser [new URL(..)] and [String.toLowerCase],
    are the fields of a [Platform]; every general theorem holds for every
    platform.  The simulated two-second delay of [analyzeUrl] is not
    modelled. *)

From Stdlib Require Import List ZArith NArith Bool String Ascii Lia.
From Stdlib Require Import QArith Qround.
Import ListNotations.

Local Open Scope N_scope.

(* ================================================================== *)
(** ** JavaScript strings *)

Module JS.

(** A string is its sequence of UTF-16 code units. *)
Definition str := list N.

(** Code units of a literal written in this (UTF-8) file: the bytes of the
    Rocq string are decoded and code points above the BMP become a
    surrogate pair, as in a JavaScript string literal. *)
Fixpoint utf16 (bs : list N) : str :=
  match bs with
  | [] => []
  | b0 :: t0 =>
    if b0 <? 128 then b0 :: utf16 t0
    else if b0 <? 224 then
      match t0 with
      | b1 :: t1 => ((b0 - 192) * 64 + (b1 - 128)) :: utf16 t1
      | _ => []
      end
    else if b0 <? 240 then
      match t0 with
      | b1 :: b2 :: t2 =>
        ((b0 - 224) * 4096 + (b1 - 128) * 64 + (b2 - 128)) :: utf16 t2
      | _ => []
      end
    else
      match t0 with
      | b1 :: b2 :: b3 :: t3 =>
        let cp := (b0 - 240) * 262144 + (b1 - 128) * 4096
                  + (b2 - 128) * 64 + (b3 - 128) in
        let v := cp - 65536 in
        (55296 + v / 1024) :: (56320 + v mod 1024) :: utf16 t3
      | _ => []
      end
  end.

Definition lit (s : string) : str :=
  utf16 (map N_of_ascii (list_ascii_of_string s)).

(** [a === b] on strings. *)
Fixpoint eqb (a b : str) : bool :=
  match a, b with
  | [], [] => true
  | x :: a', y :: b' => (x =? y) && eqb a' b'
  | _, _ => false
  end.

(** [s.startsWith(p)] *)
Fixpoint startsWith (p s : str) : bool :=
  match p, s with
  | [], _ => true
  | x :: p', y :: s' => (x =? y) && startsWith p' s'
  | _ :: _, [] => false
  end.

(** [s.endsWith(p)] *)
Definition endsWith (p s : str) : bool := startsWith (rev p) (rev s).

(** [s.includes(p)] *)
Fixpoint includes (p s : str) : bool :=
  startsWith p s ||
  match s with
  | [] => false
  | _ :: s' => includes p s'
  end.

(** [l.join(sep)] *)
Fixpoint join (sep : str) (l : list str) : str :=
  match l with
  | [] => []
  | [x] => x
  | x :: rest => x ++ sep ++ join sep rest
  end.

(** White space and line terminators, the characters [trim] removes. *)
Definition isWhiteSpace (c : N) : bool :=
  ((9 <=? c) && (c <=? 13)) || (c =? 32) || (c =? 160) || (c =? 5760)
  || ((8192 <=? c) && (c <=? 8202)) || (c =? 8232) || (c =? 8233)
  || (c =? 8239) || (c =? 8287) || (c =? 12288) || (c =? 65279).

Fixpoint trimStart (s : str) : str :=
  match s with
  | c :: s' => if isWhiteSpace c then trimStart s' else s
  | [] => []
  end.

Definition trimEnd (s : str) : str := rev (trimStart (rev s)).

(** [s.trim()] *)
Definition trim (s : str) : str := trimEnd (trimStart s).

(** Upper-casing of a code unit of the ASCII range; it is applied only to
    the first letter of the brand names of the table. *)
Definition asciiUpper (c : N) : N :=
  if (97 <=? c) && (c <=? 122) then c - 32 else c.

(** [s.charAt(0).toUpperCase() + s.slice(1)] *)
Definition capitalize (s : str) : str :=
  match s with
  | [] => []
  | c :: s' => asciiUpper c :: s'
  end.

Definition isDigit (c : N) : bool := (48 <=? c) && (c <=? 57).

(** Decimal rendering of a length, as a template literal prints it. *)
Fixpoint digits (u : Decimal.uint) : str :=
  match u with
  | Decimal.Nil => []
  | Decimal.D0 u' => 48 :: digits u'
  | Decimal.D1 u' => 49 :: digits u'
  | Decimal.D2 u' => 50 :: digits u'
  | Decimal.D3 u' => 51 :: digits u'
  | Decimal.D4 u' => 52 :: digits u'
  | Decimal.D5 u' => 53 :: digits u'
  | Decimal.D6 u' => 54 :: digits u'
  | Decimal.D7 u' => 55 :: digits u'
  | Decimal.D8 u' => 56 :: digits u'
  | Decimal.D9 u' => 57 :: digits u'
  end.

Definition ofNat (n : nat) : str := digits (Nat.to_uint n).

End JS.

Abbreviation str := JS.str.
Notation "` s" := (JS.lit s) (at level 1, format "` s").

(* ================================================================== *)
(** ** Regular expressions

    A small backtracking matcher covering the constructs of the patterns of
    the scanner: classes, sequence, alternation, greedy repetition and the
    two anchors.  [run] returns the inputs left after each way of matching a
    prefix, in the priority order of a backtracking engine. *)

Module Regex.

Inductive regex : Type :=
| Cls (p : N -> bool)
| Eps
| Seq (a b : regex)
| Alt (a b : regex)
| Star (a : regex)
| Bol
| Eol.

Fixpoint run (r : regex) (total : nat) (s : str) : list str :=
  match r with
  | Cls p =>
    match s with
    | c :: t => if p c then [t] else []
    | [] => []
    end
  | Eps => [s]
  | Seq a b => flat_map (run b total) (run a total s)
  | Alt a b => run a total s ++ run b total s
  | Star a =>
    (fix star (fuel : nat) (s : str) {struct fuel} : list str :=
       match fuel with
       | O => [s]
       | S fuel' =>
         flat_map (fun t => if (List.length t <? List.length s)%nat
                            then star fuel' t else [])
                  (run a total s)
         ++ [s]
       end) (List.length s) s
  | Bol => if (List.length s =? total)%nat then [s] else []
  | Eol => match s with [] => [[]] | _ => [] end
  end.

Definition matchesAt (r : regex) (total : nat) (s : str) : bool :=
  match run r total s with [] => false | _ => true end.

Fixpoint search (r : regex) (total : nat) (s : str) : bool :=
  matchesAt r total s ||
  match s with
  | [] => false
  | _ :: s' => search r total s'
  end.

(** [r.test(s)] for a freshly created pattern ([lastIndex] is 0). *)
Definition test (r : regex) (s : str) : bool := search r (List.length s) s.

(** Number of matches [s.match(r)] returns for a pattern with the [g]
    flag: leftmost match, then the search resumes where it ended (one
    unit further after an empty match). *)
Fixpoint countFrom (r : regex) (total : nat) (fuel : nat) (s : str) : nat :=
  match fuel with
  | O => O
  | S fuel' =>
    match run r total s with
    | t :: _ =>
      if (List.length t <? List.length s)%nat
      then S (countFrom r total fuel' t)
      else match s with
           | [] => 1%nat
           | _ :: s' => S (countFrom r total fuel' s')
           end
    | [] =>
      match s with
      | [] => O
      | _ :: s' => countFrom r total fuel' s'
      end
    end
  end.

Definition matchCount (r : regex) (s : str) : nat :=
  countFrom r (List.length s) (S (List.length s)) s.

(** Pattern constructors. *)
Definition char (c : N) : regex := Cls (N.eqb c).
Definition range (lo hi : N) : regex := Cls (fun c => (lo <=? c) && (c <=? hi)).
Definition digit : regex := range 48 57.
(** [.]: any unit but a line terminator. *)
Definition dot : regex :=
  Cls (fun c => negb ((c =? 10) || (c =? 13) || (c =? 8232) || (c =? 8233))).

Fixpoint seqs (l : list regex) : regex :=
  match l with
  | [] => Eps
  | [r] => r
  | r :: l' => Seq r (seqs l')
  end.

Fixpoint alts (l : list regex) : regex :=
  match l with
  | [] => Cls (fun _ => false)
  | [r] => r
  | r :: l' => Alt r (alts l')
  end.

Definition plus (r : regex) : regex := Seq r (Star r).

(** [r{n,}] *)
Fixpoint atLeast (n : nat) (r : regex) : regex :=
  match n with
  | O => Star r
  | S n' => Seq r (atLeast n' r)
  end.

(** A literal word. *)
Definition word (s : string) : regex := seqs (map char (JS.lit s)).

(** A literal word under the [i] flag: without the [u] flag only the two
    ASCII cases of a letter match it. *)
Definition foldCase (c : N) : N :=
  if (65 <=? c) && (c <=? 90) then c + 32 else c.
Definition chari (c : N) : regex := Cls (fun d => foldCase d =? foldCase c).
Definition wordi (s : string) : regex := seqs (map chari (JS.lit s)).

End Regex.

(* ================================================================== *)
(** ** The platform

    [URL_parse u] is [new URL(u)]: [None] when the constructor throws, else
    the two components the scanner reads.  [toLowerCase] is
    [String.prototype.toLowerCase]. *)

Record URL : Type := mkURL { hostname : str; pathname : str }.

Class Platform : Type := {
  URL_parse : str -> option URL;
  toLowerCase : str -> str
}.

(** The two values [Math.random()] returns during one call of [analyzeUrl],
    in call order; each lies in [0, 1). *)
Record Random : Type := mkRandom { draw1 : Q; draw2 : Q }.

(* ================================================================== *)
(** ** Data model *)

Inductive RiskLevel : Type := safe | suspicious | dangerous.

(** [SAFE < SUSPICIOUS < DANGEROUS] *)
Definition rank (r : RiskLevel) : nat :=
  match r with safe => 0 | suspicious => 1 | dangerous => 2 end.

Definition level_le (a b : RiskLevel) : Prop := (rank a <= rank b)%nat.

Definition level_max (a b : RiskLevel) : RiskLevel :=
  if (rank a <=? rank b)%nat then b else a.

Record Details : Type := mkDetails {
  domainAge : str;
  ssl : bool;
  reputation : str;
  typosquatting : bool;
  redirects : Z;
  contentType : str;
  geoLocation : option str;
  registrar : str;
  dnsRecords : str;
  securityHeaders : str
}.

Record ScanResult : Type := mkScanResult {
  url : str;
  riskLevel : RiskLevel;
  score : Z;
  threats : list str;
  warnings : list str;
  details : Details
}.

(** The four local variables [analyzeUrl] mutates while the rules run. *)
Module Vars.
Record t : Type := mk {
  threats : list str;
  warnings : list str;
  riskLevel : RiskLevel;
  score : Z
}.
End Vars.

(* ================================================================== *)
(** ** The tables of the rule battery *)

Record Misspelling : Type := mkMisspelling { correct : str; misspelled : list str }.

Definition commonMisspellings : list Misspelling :=
  [ mkMisspelling `"google" [`"gooogle"; `"googel"; `"gogle"; `"googl"];
    mkMisspelling `"facebook" [`"faceb00k"; `"facebok"; `"facebook"];
    mkMisspelling `"paypal" [`"payp4l"; `"paypaI"; `"paypaII"; `"paipal"];
    mkMisspelling `"amazon" [`"amaz0n"; `"amazon"; `"amazone"; `"amazom"];
    mkMisspelling `"microsoft" [`"microsooft"; `"microsft"; `"microsofy"];
    mkMisspelling `"apple" [`"appIe"; `"appl3"; `"aple"];
    mkMisspelling `"netflix" [`"netfIix"; `"netfl1x"; `"netflixx"] ].

Record BrandPattern : Type :=
  mkBrand { brand : str; legitimate : list str; severity : Z }.

Definition brandPatterns : list BrandPattern :=
  [ mkBrand `"paypal"
      [`"paypal.com"; `"paypal.co.uk"; `"paypal.ca"; `"paypal.de"; `"paypal.fr"] 60;
    mkBrand `"amazon"
      [`"amazon.com"; `"amazon.co.uk"; `"amazon.de"; `"amazon.fr"; `"amazon.ca";
       `"amazon.in"; `"amazon.jp"] 55;
    mkBrand `"microsoft"
      [`"microsoft.com"; `"live.com"; `"outlook.com"; `"hotmail.com"; `"xbox.com"] 50;
    mkBrand `"google"
      [`"google.com"; `"gmail.com"; `"youtube.com"; `"google.co.uk"; `"google.de";
       `"google.fr"] 50;
    mkBrand `"apple" [`"apple.com"; `"icloud.com"; `"mac.com"; `"me.com"] 55;
    mkBrand `"facebook"
      [`"facebook.com"; `"fb.com"; `"meta.com"; `"instagram.com"; `"whatsapp.com"] 45;
    mkBrand `"netflix" [`"netflix.com"] 40;
    mkBrand `"spotify" [`"spotify.com"] 35;
    mkBrand `"linkedin" [`"linkedin.com"] 40;
    mkBrand `"twitter" [`"twitter.com"; `"x.com"] 40 ]%Z.

Definition suspiciousTlds : list str :=
  [ `".tk"; `".ml"; `".ga"; `".cf"; `".pw"; `".top"; `".click"; `".download";
    `".stream"; `".science"; `".work"; `".party"; `".date"; `".racing";
    `".review"; `".faith"; `".cricket"; `".win"; `".bid"; `".loan"; `".trade";
    `".accountant"; `".men"; `".xyz"; `".club"; `".online"; `".site";
    `".website"; `".space" ].

Definition urlShorteners : list str :=
  [ `"bit.ly"; `"tinyurl.com"; `"t.co"; `"short.link"; `"goo.gl"; `"ow.ly";
    `"is.gd"; `"buff.ly"; `"adf.ly"; `"bl.ink"; `"lnkd.in"; `"tiny.cc";
    `"rb.gy"; `"shorturl.at"; `"cutt.ly"; `"bitly.com" ].

Definition phishingKeywords : list str :=
  [ `"verify"; `"secure"; `"account"; `"update"; `"confirm"; `"login"; `"signin";
    `"security"; `"suspended"; `"limited"; `"unusual"; `"activity"; `"locked";
    `"billing"; `"payment"; `"invoice"; `"refund"; `"claim"; `"winner";
    `"congratulations"; `"urgent"; `"immediate"; `"action"; `"required";
    `"suspended"; `"violation"; `"expire"; `"expiry" ].

Module Patterns.
Import Regex.

(** [/[а-я]/g], Greek lower case without the final sigma, and the units
    of the surrogate pairs of the mathematical bold letters (the pattern
    has no [u] flag, so its class is a set of code units). *)
Definition homographPatterns : list regex :=
  [ range 1072 1103;
    Alt (range 945 961) (range 963 969);
    Alt (char 55349) (range 56346 56371) ].

Definition brands6 : regex :=
  alts [word "google"; word "facebook"; word "microsoft"; word "apple";
        word "amazon"; word "paypal"].

Definition lower : regex := range 97 122.

Definition suspiciousSubdomainPatterns : list regex :=
  [ seqs [word "login."; brands6; word ".com."; atLeast 2 lower];
    seqs [word "secure.";
          alts [word "bank"; word "paypal"; word "amazon"; word "microsoft"];
          word ".com."; atLeast 2 lower];
    seqs [brands6; word ".com."; atLeast 2 lower; char 46];
    seqs [word "www."; brands6; char 45; plus lower; char 46] ].

(** [/[0-9a-f]{8,}/g] *)
Definition hexRun : regex := atLeast 8 (Alt (range 48 57) (range 97 102)).

Definition redirectPatterns : list regex :=
  [ seqs [wordi "redirect"; Star dot; wordi "url="];
    seqs [wordi "goto"; Star dot; wordi "url="];
    seqs [wordi "link"; Star dot; wordi "to="];
    seqs [wordi "forward"; Star dot; wordi "to="];
    wordi "r.php?";
    wordi "go.php?" ].

Definition newDomainIndicators : list regex :=
  [ atLeast 4 digit;
    alts [wordi "temp"; wordi "test"; wordi "demo"; wordi "staging"];
    alts [wordi "new"; wordi "fresh"; wordi "latest"] ].

Definition downloadPatterns : list regex :=
  [ seqs [char 46;
          alts [wordi "exe"; wordi "zip"; wordi "rar"; wordi "bat";
                wordi "scr"; wordi "pif"; wordi "com"; wordi "jar"];
          Eol];
    seqs [wordi "download"; Star dot; wordi "file"];
    seqs [wordi "update"; Star dot; wordi "exe"];
    seqs [wordi "install"; Star dot; wordi "now"] ].

(** [/^\d+\.\d+\.\d+\.\d+/] *)
Definition ipLiteral : regex :=
  seqs [Bol; plus digit; char 46; plus digit; char 46; plus digit; char 46;
        plus digit].

End Patterns.

(* ================================================================== *)
(** ** The rule battery

    Each rule is a transformer of the local variables.  A firing is the
    four-statement block of the source: push a threat, push a warning,
    assign [riskLevel], subtract the penalty.  The source assigns the level
    in two ways: a plain assignment ([assign]) and the guarded
    [riskLevel === 'safe' ? 'suspicious' : riskLevel] ([escalate]). *)

Local Open Scope Z_scope.

Definition assign (l : RiskLevel) : RiskLevel -> RiskLevel := fun _ => l.

Definition escalate : RiskLevel -> RiskLevel :=
  fun r => match r with safe => suspicious | _ => r end.

Definition fire (threat warning : str) (level : RiskLevel -> RiskLevel)
           (penalty : Z) (st : Vars.t) : Vars.t :=
  {| Vars.threats := Vars.threats st ++ [threat];
     Vars.warnings := Vars.warnings st ++ [warning];
     Vars.riskLevel := level (Vars.riskLevel st);
     Vars.score := Vars.score st - penalty |}.

(** [for (const x of l) { <body> }] *)
Definition forEach {A : Type} (l : list A) (body : A -> Vars.t -> Vars.t)
           (st : Vars.t) : Vars.t :=
  fold_left (fun acc x => body x acc) l st.

(** [for (const x of l) { if (c x) { <firing>; break; } }] *)
Fixpoint forFirst {A : Type} (l : list A) (c : A -> bool)
         (body : A -> Vars.t -> Vars.t) (st : Vars.t) : Vars.t :=
  match l with
  | [] => st
  | x :: l' => if c x then body x st else forFirst l' c body st
  end.

Definition when (c : bool) (f : Vars.t -> Vars.t) (st : Vars.t) : Vars.t :=
  if c then f st else st.

Definition quote : str := [34%N].

(** 1. Misspellings or character swaps in domain names *)
Definition ruleMisspelling (domain : str) : Vars.t -> Vars.t :=
  forEach commonMisspellings (fun check =>
    forEach (misspelled check) (fun misspelled =>
      when (JS.includes misspelled domain)
        (fire (`"⚠️ Possible misspelling detected: " ++ quote ++ misspelled
                 ++ quote ++ `" (looks like " ++ correct check ++ `")")
              (`"This URL contains what appears to be a misspelled version of "
                 ++ correct check ++ `". Please double-check before proceeding.")
              (assign dangerous) 70))).

(** 2. Homograph attacks (lookalike characters) *)
Definition ruleHomograph (domain : str) : Vars.t -> Vars.t :=
  forEach Patterns.homographPatterns (fun pattern =>
    when (Regex.test pattern domain)
      (fire `"🔍 Homograph attack detected: Non-Latin characters that may mimic legitimate sites"
            `"This URL uses characters that look similar to regular letters but aren't. This is a common trick used by scammers."
            (assign dangerous) 80)).

(** 3. Missing HTTPS encryption *)
Definition ruleHttps (urlToAnalyze : str) : Vars.t -> Vars.t :=
  when (negb (JS.startsWith `"https://" urlToAnalyze))
    (fire `"🔐 No HTTPS encryption detected"
          `"This site doesn't use secure HTTPS encryption. Your data could be intercepted."
          escalate 30).

(** 4. Unusual subdomains masquerading as popular sites *)
Definition ruleSubdomain (domain : str) : Vars.t -> Vars.t :=
  forEach Patterns.suspiciousSubdomainPatterns (fun pattern =>
    when (Regex.test pattern domain)
      (fire `"🌐 Suspicious subdomain structure detected"
            `"This URL appears to mimic a legitimate site using fake subdomains. Real companies don't structure their URLs this way."
            (assign dangerous) 75)).

(** 5. Excessive URL length with random characters *)
Definition ruleLength (fullUrl : str) : Vars.t -> Vars.t :=
  when (100 <? List.length fullUrl)%nat
    (let randomCharCount := Regex.matchCount Patterns.hexRun fullUrl in
     when ((2 <? randomCharCount)%nat || (200 <? List.length fullUrl)%nat)
       (fire (`"🧩 Unusually long or obfuscated URL detected ("
                ++ JS.ofNat (List.length fullUrl) ++ `" characters)")
             `"This URL is unusually long and may be trying to hide its true destination."
             escalate 25)).

(** 7. Open redirects patterns *)
Definition ruleRedirect (fullUrl : str) : Vars.t -> Vars.t :=
  forEach Patterns.redirectPatterns (fun pattern =>
    when (Regex.test pattern fullUrl)
      (fire `"⛔ Potential open redirect detected"
            `"This URL appears to redirect users to another site, which could be used to mask malicious destinations."
            (assign suspicious) 40)).

(** 8. Recently registered domains (simulated check) *)
Definition ruleNewDomain (domain : str) : Vars.t -> Vars.t :=
  forEach Patterns.newDomainIndicators (fun pattern =>
    when (Regex.test pattern domain)
      (fire `"🗓️ Possible recently registered domain"
            `"This domain shows signs of being newly registered, which is common with scam sites."
            escalate 20)).

(** 9. File download indicators *)
Definition ruleDownload (fullUrl : str) : Vars.t -> Vars.t :=
  forEach Patterns.downloadPatterns (fun pattern =>
    when (Regex.test pattern fullUrl)
      (fire `"📥 Potential file download detected"
            `"This URL may automatically download files to your computer, which could be dangerous."
            (assign dangerous) 60)).

(** Enhanced brand typosquatting detection *)
Definition isLegitimate (domain : str) (pattern : BrandPattern) : bool :=
  existsb (fun legit => JS.eqb domain legit || JS.endsWith (`"." ++ legit) domain)
          (legitimate pattern).

Definition ruleBrand (domain : str) : Vars.t -> Vars.t :=
  forEach brandPatterns (fun pattern =>
    when (JS.includes (brand pattern) domain)
      (when (negb (isLegitimate domain pattern))
         (fire (`"🥷 Possible " ++ JS.capitalize (brand pattern) ++ `" impersonation")
               (`"This URL appears to impersonate " ++ brand pattern
                  ++ `" but isn't the real website. Always verify URLs carefully.")
               (assign dangerous) (severity pattern)))).

(** 13. Suspicious top-level domains *)
Definition ruleTld (domain : str) : Vars.t -> Vars.t :=
  forFirst suspiciousTlds (fun tld => JS.endsWith tld domain) (fun tld =>
    fire (`"🧪 High-risk domain extension: " ++ tld)
         (`"This website uses a domain extension (" ++ tld
            ++ `") that's commonly associated with spam and malicious sites.")
         escalate 25).

(** URL shorteners detection *)
Definition ruleShortener (domain : str) : Vars.t -> Vars.t :=
  forFirst urlShorteners (fun shortener => JS.includes shortener domain) (fun _ =>
    fire `"🔗 URL shortener detected - destination hidden"
         `"This is a shortened URL that hides the real destination. Be cautious as you can't see where it actually leads."
         escalate 20).

Section Engine.

Context {P : Platform}.

(** Phishing keywords *)
Definition foundKeywords (domain : str) (urlObj : URL) : list str :=
  filter (fun keyword =>
            JS.includes keyword domain
            || JS.includes keyword (toLowerCase (pathname urlObj)))
         phishingKeywords.

Definition ruleKeywords (domain : str) (urlObj : URL) : Vars.t -> Vars.t :=
  when (2 <=? List.length (foundKeywords domain urlObj))%nat
    (fire (`"🚨 Multiple urgent keywords detected: "
             ++ JS.join `", " (firstn 3 (foundKeywords domain urlObj)))
          `"This URL contains multiple words designed to create urgency or fear. Legitimate companies rarely use such tactics."
          (assign dangerous) 50).

(** IP address check *)
Definition ruleIp (domain : str) : Vars.t -> Vars.t :=
  when (Regex.test Patterns.ipLiteral domain)
    (fire `"🌐 IP address instead of domain name"
          `"This URL uses an IP address instead of a proper domain name, which is unusual for legitimate websites."
          (assign suspicious) 35).

(** Punycode check *)
Definition rulePunycode (domain : str) : Vars.t -> Vars.t :=
  when (JS.includes `"xn--" domain)
    (fire `"🔍 Punycode domain detected (possible spoofing)"
          `"This URL uses special encoding that could be hiding its true appearance. This is sometimes used for spoofing."
          (assign suspicious) 40).

(** The rules in the order the [try] block runs them. *)
Definition battery (urlToAnalyze : str) (urlObj : URL) : list (Vars.t -> Vars.t) :=
  let domain := toLowerCase (hostname urlObj) in
  let fullUrl := toLowerCase urlToAnalyze in
  [ ruleMisspelling domain;
    ruleHomograph domain;
    ruleHttps urlToAnalyze;
    ruleSubdomain domain;
    ruleLength fullUrl;
    ruleRedirect fullUrl;
    ruleNewDomain domain;
    ruleDownload fullUrl;
    ruleBrand domain;
    ruleTld domain;
    ruleShortener domain;
    ruleKeywords domain urlObj;
    ruleIp domain;
    rulePunycode domain ].

Definition runRules (rules : list (Vars.t -> Vars.t)) (st : Vars.t) : Vars.t :=
  fold_left (fun acc rule => rule acc) rules st.

(** [score = Math.max(0, score)] *)
Definition clamp (st : Vars.t) : Vars.t :=
  {| Vars.threats := Vars.threats st;
     Vars.warnings := Vars.warnings st;
     Vars.riskLevel := Vars.riskLevel st;
     Vars.score := Z.max 0 (Vars.score st) |}.

(** The [catch] block. *)
Definition catchInvalid (st : Vars.t) : Vars.t :=
  {| Vars.threats := Vars.threats st ++ [`"❌ Invalid URL format"];
     Vars.warnings :=
       Vars.warnings st ++ [`"This URL format appears to be invalid or malformed."];
     Vars.riskLevel := suspicious;
     Vars.score := 30 |}.

(** [if (threats.length === 0) { ... }] *)
Definition noThreats (st : Vars.t) : Vars.t :=
  match Vars.threats st with
  | [] =>
    {| Vars.threats := Vars.threats st ++ [`"✅ No obvious threats detected"];
       Vars.warnings :=
         Vars.warnings st
         ++ [`"This URL appears to be safe, but always exercise caution when clicking links."];
       Vars.riskLevel := Vars.riskLevel st;
       Vars.score := Vars.score st |}
  | _ :: _ => st
  end.

Definition initial : Vars.t :=
  {| Vars.threats := []; Vars.warnings := []; Vars.riskLevel := safe;
     Vars.score := 100 |}.

(** The local variables when the [return] statement is reached.  Only
    [new URL] can throw inside the [try] block, and it does so before any
    variable is written. *)
Definition finalVars (urlToAnalyze : str) : Vars.t :=
  noThreats
    match URL_parse urlToAnalyze with
    | Some urlObj => clamp (runRules (battery urlToAnalyze urlObj) initial)
    | None => catchInvalid initial
    end.

(** [Math.floor(Math.random() * n)] *)
Definition randomBelow (draw : Q) (n : Z) : Z := Qfloor (draw * inject_Z n).

Definition mkDetailsOf (rnd : Random) (urlToAnalyze : str) (st : Vars.t) : Details :=
  let score := Vars.score st in
  {| domainAge :=
       if 80 <? score then `"Established (>1 year)"
       else if 50 <? score then `"Moderate (6-12 months)"
       else `"New/Unknown (<6 months)";
     ssl := JS.startsWith `"https://" urlToAnalyze;
     reputation :=
       if 80 <? score then `"Excellent"
       else if 60 <? score then `"Good"
       else if 40 <? score then `"Moderate"
       else if 20 <? score then `"Poor"
       else `"Critical";
     typosquatting :=
       existsb (fun t => JS.includes `"typosquatting" t
                         || JS.includes `"impersonation" t)
               (Vars.threats st);
     redirects := randomBelow (draw1 rnd) 3;
     contentType :=
       if JS.includes `".php" urlToAnalyze then `"Dynamic (PHP)"
       else `"Static/Unknown";
     geoLocation :=
       nth_error [`"US"; `"CN"; `"RU"; `"Unknown"]
                 (Z.to_nat (randomBelow (draw2 rnd) 4));
     registrar := if 70 <? score then `"Trusted" else `"Unknown/Suspicious";
     dnsRecords := if 60 <? score then `"Valid" else `"Suspicious/Missing";
     securityHeaders :=
       if JS.startsWith `"https://" urlToAnalyze && (70 <? score)
       then `"Present" else `"Missing/Weak" |}.

Definition analyzeUrl (rnd : Random) (urlToAnalyze : str) : ScanResult :=
  let st := finalVars urlToAnalyze in
  {| url := urlToAnalyze;
     riskLevel := Vars.riskLevel st;
     score := Vars.score st;
     threats := Vars.threats st;
     warnings := Vars.warnings st;
     details := mkDetailsOf rnd urlToAnalyze st |}.

(** [handleScan]: the result handed to [setResult], or [None] when the
    handler returns early because the trimmed input is empty. *)
Definition normalize (url : str) : str :=
  let urlToAnalyze := JS.trim url in
  if negb (JS.startsWith `"http://" urlToAnalyze)
     && negb (JS.startsWith `"https://" urlToAnalyze)
  then `"https://" ++ urlToAnalyze
  else urlToAnalyze.

Definition handleScan (rnd : Random) (url : str) : option ScanResult :=
  match JS.trim url with
  | [] => None
  | _ :: _ => Some (analyzeUrl rnd (normalize url))
  end.

End Engine.

(* ================================================================== *)
(** ** A reference platform

    An instance of [Platform] on which the examples run.  Its parser accepts
    only plain [http(s)://host/path?query#fragment] inputs: a non-empty host
    of lower-case letters, digits, hyphens and dots with no empty label and
    no [xn--] label, which is either not numeric in its last label or a
    dotted quad of four decimal bytes; and a path of unreserved characters
    without dot segments.  On these the URL parser of the platform returns
    the host and the path unchanged (and ["/"] for a missing path).  Every
    other input is rejected; the inputs the examples rely on being rejected,
    with an empty host, a colon-only host or a space in the host, are
    rejected by the platform parser as well.  Lower-casing acts on the ASCII
    letters. *)

Module Ref.

Local Open Scope N_scope.

Fixpoint takeUntil (stop : N -> bool) (s : str) : str :=
  match s with
  | [] => []
  | c :: s' => if stop c then [] else c :: takeUntil stop s'
  end.

Fixpoint dropUntil (stop : N -> bool) (s : str) : str :=
  match s with
  | [] => []
  | c :: s' => if stop c then s else dropUntil stop s'
  end.

Fixpoint labelsFrom (cur : str) (s : str) : list str :=
  match s with
  | [] => [rev cur]
  | c :: s' => if c =? 46 then rev cur :: labelsFrom [] s'
               else labelsFrom (c :: cur) s'
  end.

Definition labels (s : str) : list str := labelsFrom [] s.

Definition isDigit (c : N) : bool := JS.isDigit c.
Definition isLower (c : N) : bool := (97 <=? c) && (c <=? 122).
Definition isUpper (c : N) : bool := (65 <=? c) && (c <=? 90).

Definition hostChar (c : N) : bool :=
  isLower c || isDigit c || (c =? 45) || (c =? 46).

Definition pathChar (c : N) : bool :=
  isLower c || isUpper c || isDigit c
  || (c =? 47) || (c =? 45) || (c =? 46) || (c =? 95) || (c =? 126).

Definition decimalValue (l : str) : N :=
  fold_left (fun acc c => acc * 10 + (c - 48)) l 0.

Definition byteLabel (l : str) : bool :=
  forallb isDigit l
  && match l with
     | [] => false
     | [_] => true
     | c :: _ => negb (c =? 48)
     end
  && (List.length l <=? 3)%nat
  && (decimalValue l <=? 255).

Definition hostOk (host : str) : bool :=
  let ls := labels host in
  forallb hostChar host
  && forallb (fun l => negb (JS.eqb l [])) ls
  && forallb (fun l => negb (JS.startsWith `"xn--" l)) ls
  && match last ls [] with
     | c :: _ =>
       if isDigit c
       then (List.length ls =? 4)%nat && forallb byteLabel ls
       else true
     | [] => false
     end.

Definition pathOk (path : str) : bool :=
  forallb pathChar path && negb (JS.includes `"/." path).

Definition afterScheme (u : str) : option str :=
  if JS.startsWith `"https://" u then Some (skipn 8 u)
  else if JS.startsWith `"http://" u then Some (skipn 7 u)
  else None.

Definition delimiter (c : N) : bool := (c =? 47) || (c =? 63) || (c =? 35).
Definition queryOrFragment (c : N) : bool := (c =? 63) || (c =? 35).

Definition parse (u : str) : option URL :=
  match afterScheme u with
  | None => None
  | Some rest =>
    let host := takeUntil delimiter rest in
    let path :=
      match dropUntil delimiter rest with
      | (47 :: _) as tail => takeUntil queryOrFragment tail
      | _ => `"/"
      end in
    if hostOk host && pathOk path
    then Some {| hostname := host; pathname := path |}
    else None
  end.

Definition lower (s : str) : str := map Regex.foldCase s.

Definition platform : Platform :=
  {| URL_parse := parse; toLowerCase := lower |}.

(** Two fixed draws for the examples. *)
Definition rnd : Random := {| draw1 := 0; draw2 := 0 |}.

End Ref.

(* ================================================================== *)
(** ** Specification-side notions

    The specification speaks of findings (one per rule firing, each with its
    threat and the warning that explains it), of the trace of the risk level
    along the battery, and of the two typosquatting categories.  They are
    defined here next to the code, to be compared with it. *)

(** A finding, with the data its two messages are built from. *)
Inductive Finding : Type :=
| Misspelt (misspelled correct : str)
| Homograph
| NoHttps
| FakeSubdomain
| LongUrl (length : nat)
| OpenRedirect
| NewDomain
| FileDownload
| Impersonation (brand : str)
| RiskyTld (tld : str)
| Shortener
| UrgentKeywords (found : list str)
| IpLiteral
| Punycode
| InvalidUrl
| NoThreat.

Definition threatOf (f : Finding) : str :=
  match f with
  | Misspelt m c =>
    `"⚠️ Possible misspelling detected: " ++ quote ++ m ++ quote
      ++ `" (looks like " ++ c ++ `")"
  | Homograph =>
    `"🔍 Homograph attack detected: Non-Latin characters that may mimic legitimate sites"
  | NoHttps => `"🔐 No HTTPS encryption detected"
  | FakeSubdomain => `"🌐 Suspicious subdomain structure detected"
  | LongUrl n =>
    `"🧩 Unusually long or obfuscated URL detected (" ++ JS.ofNat n ++ `" characters)"
  | OpenRedirect => `"⛔ Potential open redirect detected"
  | NewDomain => `"🗓️ Possible recently registered domain"
  | FileDownload => `"📥 Potential file download detected"
  | Impersonation b => `"🥷 Possible " ++ JS.capitalize b ++ `" impersonation"
  | RiskyTld t => `"🧪 High-risk domain extension: " ++ t
  | Shortener => `"🔗 URL shortener detected - destination hidden"
  | UrgentKeywords l =>
    `"🚨 Multiple urgent keywords detected: " ++ JS.join `", " (firstn 3 l)
  | IpLiteral => `"🌐 IP address instead of domain name"
  | Punycode => `"🔍 Punycode domain detected (possible spoofing)"
  | InvalidUrl => `"❌ Invalid URL format"
  | NoThreat => `"✅ No obvious threats detected"
  end.

Definition warningOf (f : Finding) : str :=
  match f with
  | Misspelt _ c =>
    `"This URL contains what appears to be a misspelled version of " ++ c
      ++ `". Please double-check before proceeding."
  | Homograph =>
    `"This URL uses characters that look similar to regular letters but aren't. This is a common trick used by scammers."
  | NoHttps =>
    `"This site doesn't use secure HTTPS encryption. Your data could be intercepted."
  | FakeSubdomain =>
    `"This URL appears to mimic a legitimate site using fake subdomains. Real companies don't structure their URLs this way."
  | LongUrl _ =>
    `"This URL is unusually long and may be trying to hide its true destination."
  | OpenRedirect =>
    `"This URL appears to redirect users to another site, which could be used to mask malicious destinations."
  | NewDomain =>
    `"This domain shows signs of being newly registered, which is common with scam sites."
  | FileDownload =>
    `"This URL may automatically download files to your computer, which could be dangerous."
  | Impersonation b =>
    `"This URL appears to impersonate " ++ b
      ++ `" but isn't the real website. Always verify URLs carefully."
  | RiskyTld t =>
    `"This website uses a domain extension (" ++ t
      ++ `") that's commonly associated with spam and malicious sites."
  | Shortener =>
    `"This is a shortened URL that hides the real destination. Be cautious as you can't see where it actually leads."
  | UrgentKeywords _ =>
    `"This URL contains multiple words designed to create urgency or fear. Legitimate companies rarely use such tactics."
  | IpLiteral =>
    `"This URL uses an IP address instead of a proper domain name, which is unusual for legitimate websites."
  | Punycode =>
    `"This URL uses special encoding that could be hiding its true appearance. This is sometimes used for spoofing."
  | InvalidUrl => `"This URL format appears to be invalid or malformed."
  | NoThreat =>
    `"This URL appears to be safe, but always exercise caution when clicking links."
  end.

(** The threats and warnings are those of a sequence of findings, position
    by position. *)
Definition pairedBy (fs : list Finding) (ts ws : list str) : Prop :=
  ts = map threatOf fs /\ ws = map warningOf fs.

(** The local variables before the first rule and after each rule. *)
Fixpoint trace (rules : list (Vars.t -> Vars.t)) (st : Vars.t) : list Vars.t :=
  st :: match rules with
        | [] => []
        | rule :: rest => trace rest (rule st)
        end.

Definition levelTrace {P : Platform} (urlToAnalyze : str) (urlObj : URL) : list RiskLevel :=
  map Vars.riskLevel (trace (battery urlToAnalyze urlObj) initial).

(** A sequence of levels never goes down. *)
Fixpoint nonDecreasing (l : list RiskLevel) : bool :=
  match l with
  | a :: (b :: _) as rest => (rank a <=? rank b)%nat && nonDecreasing rest
  | _ => true
  end.

(** The misspelling rule fires on the host. *)
Definition misspellingFires (domain : str) : bool :=
  existsb (fun check => existsb (fun m => JS.includes m domain) (misspelled check))
          commonMisspellings.

(** The brand-impersonation rule fires on the host. *)
Definition impersonationFires (domain : str) : bool :=
  existsb (fun pattern => JS.includes (brand pattern) domain
                          && negb (isLegitimate domain pattern))
          brandPatterns.

(** Two results agree on everything but the two fields drawn at random. *)
Definition sameClassification (a b : ScanResult) : Prop :=
  url a = url b /\ riskLevel a = riskLevel b /\ score a = score b
  /\ threats a = threats b /\ warnings a = warnings b
  /\ domainAge (details a) = domainAge (details b)
  /\ ssl (details a) = ssl (details b)
  /\ reputation (details a) = reputation (details b)
  /\ typosquatting (details a) = typosquatting (details b)
  /\ contentType (details a) = contentType (details b)
  /\ registrar (details a) = registrar (details b)
  /\ dnsRecords (details a) = dnsRecords (details b)
  /\ securityHeaders (details a) = securityHeaders (details b).

(** One run of a piece of the battery, seen from outside: the score did not
    rise and the two message lists grew by the messages of some findings. *)
Definition extends (st st' : Vars.t) : Prop :=
  Vars.score st' <= Vars.score st
  /\ exists fs,
       Vars.threats st' = Vars.threats st ++ map threatOf fs
       /\ Vars.warnings st' = Vars.warnings st ++ map warningOf fs.

(** The level did not go down. *)
Definition raises (st st' : Vars.t) : Prop :=
  level_le (Vars.riskLevel st) (Vars.riskLevel st').

(** The test of the typosquatting flag on one threat, and on a list. *)
Definition flagged (t : str) : bool :=
  JS.includes `"typosquatting" t || JS.includes `"impersonation" t.

Definition flagOf (ts : list str) : bool := existsb flagged ts.

(** The flag did not change. *)
Definition silent (st st' : Vars.t) : Prop :=
  flagOf (Vars.threats st') = flagOf (Vars.threats st).

(** The sequences of at most [n] elements picked from [l] in order; the
    first [n] elements of a filtered list are one of them. *)
Fixpoint picks {A : Type} (n : nat) (l : list A) : list (list A) :=
  match l with
  | [] => [[]]
  | x :: l' =>
    match n with
    | O => [[]]
    | S n' => map (cons x) (picks n' l') ++ picks n l'
    end
  end.

(** What the platform does on a concrete input: [new URL(u)] succeeds with
    the given host and path, and lower-casing leaves the input, the host and
    the path as they are (they are already in lower case). *)
Definition parsesAs {P : Platform} (u host path : str) : Prop :=
  URL_parse u = Some (mkURL host path)
  /\ toLowerCase host = host /\ toLowerCase u = u /\ toLowerCase path = path.

(** The platform that answers every query the way [parsesAs] describes. *)
Definition asParsed (host path : str) : Platform :=
  {| URL_parse := fun _ => Some (mkURL host path); toLowerCase := fun s => s |}.


(* ================================================================== *)
(** ** Further notions about the engine *)

(** The penalty a finding subtracts from the score.  A brand finding
    subtracts the severity the brand table gives for its brand; the two
    terminal findings subtract nothing. *)
Definition penaltyOf (f : Finding) : Z :=
  match f with
  | Misspelt _ _ => 70
  | Homograph => 80
  | NoHttps => 30
  | FakeSubdomain => 75
  | LongUrl _ => 25
  | OpenRedirect => 40
  | NewDomain => 20
  | FileDownload => 60
  | Impersonation b =>
    match find (fun pattern => JS.eqb (brand pattern) b) brandPatterns with
    | Some pattern => severity pattern
    | None => 0
    end
  | RiskyTld _ => 25
  | Shortener => 20
  | UrgentKeywords _ => 50
  | IpLiteral => 35
  | Punycode => 40
  | InvalidUrl => 0
  | NoThreat => 0
  end.

Definition totalPenalty (fs : list Finding) : Z :=
  fold_right (fun f acc => penaltyOf f + acc) 0 fs.

(** A piece of the battery appended the messages of some findings and
    subtracted exactly their penalties. *)
Definition accounts (st st' : Vars.t) : Prop :=
  exists fs,
    Vars.threats st' = Vars.threats st ++ map threatOf fs
    /\ Vars.warnings st' = Vars.warnings st ++ map warningOf fs
    /\ Vars.score st' = Vars.score st - totalPenalty fs.

(** How level, score and messages hang together while the rules run: the
    level is SAFE exactly as long as nothing fired; once something fired
    the score is at most 80, and at most 65 when the level is DANGEROUS. *)
Definition coherent (st : Vars.t) : Prop :=
  match Vars.riskLevel st with
  | safe => Vars.score st = 100 /\ Vars.threats st = [] /\ Vars.warnings st = []
  | suspicious => Vars.score st <= 80 /\ Vars.threats st <> []
  | dangerous => Vars.score st <= 65 /\ Vars.threats st <> []
  end.

Definition keepsCoherent (st st' : Vars.t) : Prop := coherent st -> coherent st'.

(** One of the three rules that assign SUSPICIOUS outright fires. *)
Definition overrides (fullUrl domain : str) : bool :=
  existsb (fun pattern => Regex.test pattern fullUrl) Patterns.redirectPatterns
  || Regex.test Patterns.ipLiteral domain
  || JS.includes `"xn--" domain.

(** One of the three DANGEROUS rules that run after the open-redirect rule
    fires. *)
Definition lateDanger {P : Platform} (fullUrl domain : str) (urlObj : URL) : bool :=
  existsb (fun pattern => Regex.test pattern fullUrl) Patterns.downloadPatterns
  || impersonationFires domain
  || (2 <=? List.length (foundKeywords domain urlObj))%nat.

(** The misspelling dictionary without the four entries written with a
    capital I. *)
Definition lowerCaseMisspellings : list Misspelling :=
  [ mkMisspelling `"google" [`"gooogle"; `"googel"; `"gogle"; `"googl"];
    mkMisspelling `"facebook" [`"faceb00k"; `"facebok"; `"facebook"];
    mkMisspelling `"paypal" [`"payp4l"; `"paipal"];
    mkMisspelling `"amazon" [`"amaz0n"; `"amazon"; `"amazone"; `"amazom"];
    mkMisspelling `"microsoft" [`"microsooft"; `"microsft"; `"microsofy"];
    mkMisspelling `"apple" [`"appl3"; `"aple"];
    mkMisspelling `"netflix" [`"netfl1x"; `"netflixx"] ].

(** The misspelling rule over a given dictionary; [ruleMisspelling] is the
    rule over [commonMisspellings]. *)
Definition ruleMisspellingOver (table : list Misspelling) (domain : str) :
  Vars.t -> Vars.t :=
  forEach table (fun check =>
    forEach (misspelled check) (fun misspelled =>
      when (JS.includes misspelled domain)
        (fire (`"⚠️ Possible misspelling detected: " ++ quote ++ misspelled
                 ++ quote ++ `" (looks like " ++ correct check ++ `")")
              (`"This URL contains what appears to be a misspelled version of "
                 ++ correct check ++ `". Please double-check before proceeding.")
              (assign dangerous) 70))).

(** A rule left the given threat in the list and charged at least the given
    penalty. *)
Definition hits (threat : str) (penalty : Z) (st st' : Vars.t) : Prop :=
  In threat (Vars.threats st') /\ Vars.score st' <= Vars.score st - penalty.

(* ================================================================== *)
(** ** The second, smaller variant of the scanner

    The file holds a second [UrlScanner] component with a shorter
    [analyzeUrl]: nine rules, each a single [if], no warnings and four
    detail fields.  Its [handleScan] has the statements of the first. *)

(** [s.split(sep)] for a separator of one code unit. *)
Fixpoint splitFrom (sep : N) (cur : str) (s : str) : list str :=
  match s with
  | [] => [rev cur]
  | c :: s' => if (c =? sep)%N then rev cur :: splitFrom sep [] s'
               else splitFrom sep (c :: cur) s'
  end.

Definition splitOn (sep : N) (s : str) : list str := splitFrom sep [] s.

Module Draft.

Module Vars.
Record t : Type := mk {
  threats : list str;
  riskLevel : RiskLevel;
  score : Z
}.
End Vars.

Record Details : Type := mkDetails {
  domainAge : str;
  ssl : bool;
  reputation : str;
  typosquatting : bool
}.

Record ScanResult : Type := mkScanResult {
  url : str;
  riskLevel : RiskLevel;
  score : Z;
  threats : list str;
  details : Details
}.

Definition fire (threat : str) (level : RiskLevel -> RiskLevel) (penalty : Z)
           (st : Vars.t) : Vars.t :=
  {| Vars.threats := Vars.threats st ++ [threat];
     Vars.riskLevel := level (Vars.riskLevel st);
     Vars.score := Vars.score st - penalty |}.

Definition when (c : bool) (f : Vars.t -> Vars.t) (st : Vars.t) : Vars.t :=
  if c then f st else st.

(** The conditions of the nine [if] statements. *)
Definition paypalCond (domain : str) : bool :=
  JS.includes `"paypal" domain && negb (JS.includes `"paypal.com" domain).

Definition amazonCond (domain : str) : bool :=
  JS.includes `"amazon" domain && negb (JS.includes `"amazon.com" domain)
  && negb (JS.includes `"amazon." domain).

Definition microsoftCond (domain : str) : bool :=
  JS.includes `"microsoft" domain && negb (JS.includes `"microsoft.com" domain).

Definition googleCond (domain : str) : bool :=
  JS.includes `"google" domain && negb (JS.includes `"google.com" domain)
  && negb (JS.includes `"google." domain).

Definition suspiciousTlds : list str := [`".tk"; `".ml"; `".ga"; `".cf"].

Definition tldCond (domain : str) : bool :=
  existsb (fun tld => JS.endsWith tld domain) suspiciousTlds.

Definition urlShorteners : list str :=
  [`"bit.ly"; `"tinyurl.com"; `"t.co"; `"short.link"].

Definition shortenerCond (domain : str) : bool :=
  existsb (fun shortener => JS.includes shortener domain) urlShorteners.

Definition subdomainCond (domain : str) : bool :=
  (4 <? List.length (splitOn 46 domain))%nat.

Definition hyphenCond (domain : str) : bool :=
  JS.includes `"-" domain && (3 <? List.length (splitOn 45 domain))%nat.

(** [/[а-я]/.test(domain) || /[αβγδε]/.test(domain)] *)
Definition nonLatinCond (domain : str) : bool :=
  Regex.test (Regex.range 1072 1103) domain
  || Regex.test (Regex.range 945 949) domain.

(** The statements of the [try] block after the host is read, in order. *)
Definition rules (domain : str) : list (Vars.t -> Vars.t) :=
  [ when (paypalCond domain)
      (fire `"Possible PayPal typosquatting" (assign dangerous) 50);
    when (amazonCond domain)
      (fire `"Possible Amazon typosquatting" (assign dangerous) 50);
    when (microsoftCond domain)
      (fire `"Possible Microsoft typosquatting" (assign dangerous) 40);
    when (googleCond domain)
      (fire `"Possible Google typosquatting" (assign dangerous) 40);
    when (tldCond domain)
      (fire `"Suspicious top-level domain" escalate 20);
    when (shortenerCond domain)
      (fire `"URL shortener detected - verify destination" escalate 15);
    when (subdomainCond domain)
      (fire `"Unusually long subdomain structure" escalate 10);
    when (hyphenCond domain)
      (fire `"Excessive hyphens in domain name" escalate 10);
    when (nonLatinCond domain)
      (fire `"Non-Latin characters detected (possible spoofing)"
            (assign dangerous) 60) ].

Definition runRules (l : list (Vars.t -> Vars.t)) (st : Vars.t) : Vars.t :=
  fold_left (fun acc rule => rule acc) l st.

Definition clamp (st : Vars.t) : Vars.t :=
  {| Vars.threats := Vars.threats st;
     Vars.riskLevel := Vars.riskLevel st;
     Vars.score := Z.max 0 (Vars.score st) |}.

Definition catchInvalid (st : Vars.t) : Vars.t :=
  {| Vars.threats := Vars.threats st ++ [`"Invalid URL format"];
     Vars.riskLevel := suspicious;
     Vars.score := 30 |}.

Definition noThreats (st : Vars.t) : Vars.t :=
  match Vars.threats st with
  | [] =>
    {| Vars.threats := Vars.threats st ++ [`"No obvious threats detected"];
       Vars.riskLevel := Vars.riskLevel st;
       Vars.score := Vars.score st |}
  | _ :: _ => st
  end.

Definition initial : Vars.t :=
  {| Vars.threats := []; Vars.riskLevel := safe; Vars.score := 100 |}.

Definition finalVars {P : Platform} (urlToAnalyze : str) : Vars.t :=
  noThreats
    match URL_parse urlToAnalyze with
    | Some urlObj => clamp (runRules (rules (toLowerCase (hostname urlObj))) initial)
    | None => catchInvalid initial
    end.

Definition analyzeUrl {P : Platform} (urlToAnalyze : str) : ScanResult :=
  let st := finalVars urlToAnalyze in
  {| url := urlToAnalyze;
     riskLevel := Vars.riskLevel st;
     score := Vars.score st;
     threats := Vars.threats st;
     details :=
       {| domainAge := `"Unknown";
          ssl := JS.startsWith `"https://" urlToAnalyze;
          reputation :=
            if 70 <? Vars.score st then `"Good"
            else if 40 <? Vars.score st then `"Moderate"
            else `"Poor";
          typosquatting :=
            existsb (fun t => JS.includes `"typosquatting" t) (Vars.threats st) |} |}.

Definition handleScan {P : Platform} (url : str) : option ScanResult :=
  match JS.trim url with
  | [] => None
  | _ :: _ => Some (analyzeUrl (normalize url))
  end.

(** Some rule of DANGEROUS severity fires on the host, and some rule of
    SUSPICIOUS severity does. *)
Definition anyDangerous (domain : str) : bool :=
  paypalCond domain || amazonCond domain || microsoftCond domain
  || googleCond domain || nonLatinCond domain.

Definition anySuspicious (domain : str) : bool :=
  tldCond domain || shortenerCond domain || subdomainCond domain
  || hyphenCond domain.

Definition anyBrand (domain : str) : bool :=
  paypalCond domain || amazonCond domain || microsoftCond domain
  || googleCond domain.

(** The penalty the nine conditions add up to. *)
Definition penalties (domain : str) : Z :=
  (if paypalCond domain then 50 else 0)
  + (if amazonCond domain then 50 else 0)
  + (if microsoftCond domain then 40 else 0)
  + (if googleCond domain then 40 else 0)
  + (if tldCond domain then 20 else 0)
  + (if shortenerCond domain then 15 else 0)
  + (if subdomainCond domain then 10 else 0)
  + (if hyphenCond domain then 10 else 0)
  + (if nonLatinCond domain then 60 else 0).

End Draft.

(* ================================================================== *)
(** ** The preview component ([UrlPreview.tsx])

    [generatePreview] asks up to four screenshot services, one after the
    other, for an image of the target.  Whether the image of a request URL
    loads is decided outside the program; it is the parameter [loads].  A
    failed attempt schedules the next one with a timer; the [fuel] of
    [generatePreview] is the number of such timers that have fired. *)

Module Preview.

Local Open Scope N_scope.

Definition isAlpha (c : N) : bool :=
  ((65 <=? c) && (c <=? 90)) || ((97 <=? c) && (c <=? 122)).

(** The characters [encodeURIComponent] leaves as they are: letters, digits
    and the marks - _ . ! ~ * ' ( ). *)
Definition unreserved (c : N) : bool :=
  isAlpha c || JS.isDigit c
  || existsb (N.eqb c) [45; 95; 46; 33; 126; 42; 39; 40; 41].

Definition hexDigit (n : N) : N := if n <? 10 then 48 + n else 55 + n.

(** One octet as a percent escape with upper-case digits. *)
Definition escape (octet : N) : str := [37; hexDigit (octet / 16); hexDigit (octet mod 16)].

Definition utf8 (v : N) : list N :=
  if v <? 128 then [v]
  else if v <? 2048 then [192 + v / 64; 128 + v mod 64]
  else if v <? 65536 then [224 + v / 4096; 128 + (v / 64) mod 64; 128 + v mod 64]
  else [240 + v / 262144; 128 + (v / 4096) mod 64; 128 + (v / 64) mod 64;
        128 + v mod 64].

Definition isLowSurrogate (c : N) : bool := (56320 <=? c) && (c <=? 57343).
Definition isHighSurrogate (c : N) : bool := (55296 <=? c) && (c <=? 56319).

(** [encodeURIComponent(s)]; [None] when it throws a [URIError] (an
    unpaired surrogate). *)
Fixpoint encodeURIComponent (s : str) : option str :=
  match s with
  | [] => Some []
  | c :: s' =>
    if unreserved c then option_map (cons c) (encodeURIComponent s')
    else if isLowSurrogate c then None
    else if isHighSurrogate c then
      match s' with
      | k :: s'' =>
        if isLowSurrogate k
        then option_map
               (app (flat_map escape
                       (utf8 ((c - 55296) * 1024 + (k - 56320) + 65536))))
               (encodeURIComponent s'')
        else None
      | [] => None
      end
    else option_map (app (flat_map escape (utf8 c))) (encodeURIComponent s')
  end.

Record Service : Type := mkService {
  name : str;
  generateUrl : str -> option str
}.

(** A template literal with the encoded target between two fixed parts. *)
Definition template (before after : str) (targetUrl : str) : option str :=
  option_map (fun encoded => before ++ encoded ++ after) (encodeURIComponent targetUrl).

Definition screenshotServices : list Service :=
  [ mkService `"Screenshot API"
      (template `"https://shot.screenshotapi.net/screenshot?token=demo&url="
                `"&width=1200&height=800&output=image&file_type=png&wait_for_event=load");
    mkService `"Htmlcsstoimage"
      (template `"https://hcti.io/v1/image?url="
                `"&viewport_width=1200&viewport_height=800");
    mkService `"URL2PNG"
      (template `"https://api.url2png.com/v6/demo/demo/png/?url="
                `"&viewport=1200x800&thumbnail_max_width=600");
    mkService `"Webshot"
      (template `"https://api.apiflash.com/v1/urltoimage?access_key=demo&url="
                `"&width=1200&height=800&delay=2&fresh=true") ].

(** The four pieces of state of the component. *)
Record State : Type := mkState {
  previewUrl : option str;
  isLoading : bool;
  error : option str;
  currentService : nat
}.

(** The [try] block of one attempt: the request URL when the block runs to
    its end, [None] when it throws (no such service, the encoder throws, or
    the image does not load).  The target is formed by the statements of
    [handleScan]. *)
Definition attempt (loads : str -> bool) (url : str) (serviceIndex : nat) : option str :=
  let targetUrl := normalize url in
  match nth_error screenshotServices serviceIndex with
  | None => None
  | Some service =>
    match generateUrl service targetUrl with
    | None => None
    | Some screenshotUrl => if loads screenshotUrl then Some screenshotUrl else None
    end
  end.

Fixpoint generatePreview (loads : str -> bool) (url : str) (fuel : nat)
         (serviceIndex : nat) (st : State) : State :=
  match url with
  | [] => st
  | _ :: _ =>
    match attempt loads url serviceIndex with
    | Some screenshotUrl =>
      {| previewUrl := Some screenshotUrl; isLoading := false; error := None;
         currentService := serviceIndex |}
    | None =>
      if (serviceIndex <? List.length screenshotServices - 1)%nat
      then
        let st' := {| previewUrl := previewUrl st; isLoading := false;
                      error := None; currentService := currentService st |} in
        match fuel with
        | O => st'
        | S fuel' => generatePreview loads url fuel' (S serviceIndex) st'
        end
      else
        {| previewUrl := previewUrl st; isLoading := false;
           error := Some `"All preview services failed";
           currentService := currentService st |}
    end
  end.

(** The first service, in order, whose attempt succeeds. *)
Definition firstLoading (loads : str -> bool) (url : str) : option nat :=
  find (fun i => match attempt loads url i with Some _ => true | None => false end)
       (seq 0 (List.length screenshotServices)).

(** The characters that delimit the parts of a query string. *)
Definition delimiter (c : N) : bool :=
  existsb (N.eqb c) [38; 61; 63; 35; 47; 58; 32; 43].

Definition count (p : N -> bool) (s : str) : nat := List.length (filter p s).

End Preview.

(* ================================================================== *)
(** ** The findings of a scan, stated as a list

    What the battery is meant to report on a parsed URL, rule by rule and
    in the order of the rules: one finding per matching entry for the rules
    that scan a list, the first match for the two rules that stop at it,
    one finding for each of the single tests. *)

Definition findingsOf {P : Platform} (urlToAnalyze : str) (urlObj : URL) : list Finding :=
  let domain := toLowerCase (hostname urlObj) in
  let fullUrl := toLowerCase urlToAnalyze in
  flat_map (fun check =>
              flat_map (fun m => if JS.includes m domain
                                 then [Misspelt m (correct check)] else [])
                       (misspelled check))
           commonMisspellings
  ++ flat_map (fun pattern => if Regex.test pattern domain then [Homograph] else [])
              Patterns.homographPatterns
  ++ (if negb (JS.startsWith `"https://" urlToAnalyze) then [NoHttps] else [])
  ++ flat_map (fun pattern => if Regex.test pattern domain then [FakeSubdomain] else [])
              Patterns.suspiciousSubdomainPatterns
  ++ (if (100 <? List.length fullUrl)%nat
      then if (2 <? Regex.matchCount Patterns.hexRun fullUrl)%nat
              || (200 <? List.length fullUrl)%nat
           then [LongUrl (List.length fullUrl)] else []
      else [])
  ++ flat_map (fun pattern => if Regex.test pattern fullUrl then [OpenRedirect] else [])
              Patterns.redirectPatterns
  ++ flat_map (fun pattern => if Regex.test pattern domain then [NewDomain] else [])
              Patterns.newDomainIndicators
  ++ flat_map (fun pattern => if Regex.test pattern fullUrl then [FileDownload] else [])
              Patterns.downloadPatterns
  ++ flat_map (fun pattern =>
                 if JS.includes (brand pattern) domain
                 then if negb (isLegitimate domain pattern)
                      then [Impersonation (brand pattern)] else []
                 else [])
              brandPatterns
  ++ match find (fun tld => JS.endsWith tld domain) suspiciousTlds with
     | Some tld => [RiskyTld tld]
     | None => []
     end
  ++ match find (fun shortener => JS.includes shortener domain) urlShorteners with
     | Some _ => [Shortener]
     | None => []
     end
  ++ (if (2 <=? List.length (foundKeywords domain urlObj))%nat
      then [UrgentKeywords (foundKeywords domain urlObj)] else [])
  ++ (if Regex.test Patterns.ipLiteral domain then [IpLiteral] else [])
  ++ (if JS.includes `"xn--" domain then [Punycode] else []).

(** A piece of the battery appended exactly the messages of the given
    findings and subtracted exactly their penalties. *)
Definition emits (fs : list Finding) (st st' : Vars.t) : Prop :=
  Vars.threats st' = Vars.threats st ++ map threatOf fs
  /\ Vars.warnings st' = Vars.warnings st ++ map warningOf fs
  /\ Vars.score st' = Vars.score st - totalPenalty fs.

(* ================================================================== *)
(** * Properties *)

(** ** Invariants carried through the control structure of the battery

    A relation between the variables before and after a piece of code that
    is reflexive and transitive is carried through a conditional, both loop
    shapes and a sequence of rules, as soon as the bodies carry it. *)

Section Closure.

Variable R : Vars.t -> Vars.t -> Prop.
Hypothesis R_refl : forall st, R st st.
Hypothesis R_trans : forall a b c, R a b -> R b c -> R a c.

Lemma when_closed (c : bool) (f : Vars.t -> Vars.t) :
  (forall st, R st (f st)) -> forall st, R st (when c f st).
Proof using R_refl R_trans.
  intros Hf st; unfold when; destruct c; [apply Hf | apply R_refl].
Qed.

Lemma forEach_closed {A : Type} (l : list A) (body : A -> Vars.t -> Vars.t) :
  (forall x, In x l -> forall st, R st (body x st)) ->
  forall st, R st (forEach l body st).
Proof using R_refl R_trans.
  unfold forEach.
  induction l as [| x l IH]; intros Hb st; simpl.
  - apply R_refl.
  - eapply R_trans.
    + apply (Hb x); now left.
    + apply IH; intros y Hy; apply Hb; now right.
Qed.

Lemma forFirst_closed {A : Type} (l : list A) (c : A -> bool)
      (body : A -> Vars.t -> Vars.t) :
  (forall x, In x l -> forall st, R st (body x st)) ->
  forall st, R st (forFirst l c body st).
Proof using R_refl R_trans.
  induction l as [| x l IH]; intros Hb st; simpl.
  - apply R_refl.
  - destruct (c x).
    + apply Hb; now left.
    + apply IH; intros y Hy; apply Hb; now right.
Qed.

Lemma runRules_closed (rules : list (Vars.t -> Vars.t)) :
  Forall (fun rule => forall st, R st (rule st)) rules ->
  forall st, R st (runRules rules st).
Proof using R_refl R_trans.
  unfold runRules.
  induction 1 as [| rule rules Hr _ IH]; intros st; simpl.
  - apply R_refl.
  - eapply R_trans; [apply Hr | apply IH].
Qed.

End Closure.

(** ** Every rule only appends findings and lowers the score *)

Lemma extends_refl (st : Vars.t) : extends st st.
Proof.
  split; [lia | exists []; simpl; now rewrite !app_nil_r].
Qed.

Lemma extends_trans (a b c : Vars.t) : extends a b -> extends b c -> extends a c.
Proof.
  intros [Hs1 [f1 [Ht1 Hw1]]] [Hs2 [f2 [Ht2 Hw2]]].
  split; [lia |].
  exists (f1 ++ f2).
  rewrite Ht2, Hw2, Ht1, Hw1, !map_app, !app_assoc.
  split; reflexivity.
Qed.

Lemma fire_extends (f : Finding) (level : RiskLevel -> RiskLevel) (penalty : Z)
      (st : Vars.t) :
  0 <= penalty ->
  extends st (fire (threatOf f) (warningOf f) level penalty st).
Proof.
  intros Hp; split; simpl; [lia |].
  exists [f]; split; reflexivity.
Qed.

(** The same, for messages written out as in the source. *)
Lemma fire_as (f : Finding) (threat warning : str)
      (level : RiskLevel -> RiskLevel) (penalty : Z) (st : Vars.t) :
  threatOf f = threat -> warningOf f = warning -> 0 <= penalty ->
  extends st (fire threat warning level penalty st).
Proof.
  intros <- <- Hp; now apply fire_extends.
Qed.

Lemma brand_severity_nonneg (pattern : BrandPattern) :
  In pattern brandPatterns -> 0 <= severity pattern.
Proof.
  assert (H : Forall (fun p => 0 <= severity p) brandPatterns)
    by (repeat constructor; simpl; lia).
  rewrite Forall_forall in H; apply H.
Qed.

(** Walk through the loops and conditionals of a rule down to its firing. *)
Ltac descend refl trans :=
  repeat first [ apply (forEach_closed _ refl trans); intros ? ?
               | apply (forFirst_closed _ refl trans); intros ? ?
               | apply (when_closed _ refl trans) ].

Ltac appends f :=
  descend extends_refl extends_trans;
  intros; apply (fire_as f); [reflexivity | reflexivity | try lia].

Lemma ruleMisspelling_extends domain st : extends st (ruleMisspelling domain st).
Proof.
  revert st; unfold ruleMisspelling.
  apply (forEach_closed _ extends_refl extends_trans); intros check _.
  apply (forEach_closed _ extends_refl extends_trans); intros m _.
  appends (Misspelt m (correct check)).
Qed.

Lemma ruleHomograph_extends domain st : extends st (ruleHomograph domain st).
Proof. revert st; unfold ruleHomograph; appends Homograph. Qed.

Lemma ruleHttps_extends u st : extends st (ruleHttps u st).
Proof. revert st; unfold ruleHttps; appends NoHttps. Qed.

Lemma ruleSubdomain_extends domain st : extends st (ruleSubdomain domain st).
Proof. revert st; unfold ruleSubdomain; appends FakeSubdomain. Qed.

Lemma ruleLength_extends fullUrl st : extends st (ruleLength fullUrl st).
Proof.
  revert st; unfold ruleLength; appends (LongUrl (List.length fullUrl)).
Qed.

Lemma ruleRedirect_extends fullUrl st : extends st (ruleRedirect fullUrl st).
Proof. revert st; unfold ruleRedirect; appends OpenRedirect. Qed.

Lemma ruleNewDomain_extends domain st : extends st (ruleNewDomain domain st).
Proof. revert st; unfold ruleNewDomain; appends NewDomain. Qed.

Lemma ruleDownload_extends fullUrl st : extends st (ruleDownload fullUrl st).
Proof. revert st; unfold ruleDownload; appends FileDownload. Qed.

Lemma ruleBrand_extends domain st : extends st (ruleBrand domain st).
Proof.
  revert st; unfold ruleBrand.
  apply (forEach_closed _ extends_refl extends_trans); intros pattern Hin.
  appends (Impersonation (brand pattern)).
  now apply brand_severity_nonneg.
Qed.

Lemma ruleTld_extends domain st : extends st (ruleTld domain st).
Proof.
  revert st; unfold ruleTld.
  apply (forFirst_closed _ extends_refl extends_trans); intros tld _.
  appends (RiskyTld tld).
Qed.

Lemma ruleShortener_extends domain st : extends st (ruleShortener domain st).
Proof. revert st; unfold ruleShortener; appends Shortener. Qed.

Lemma ruleKeywords_extends {P : Platform} domain urlObj st :
  extends st (ruleKeywords domain urlObj st).
Proof.
  revert st; unfold ruleKeywords.
  appends (UrgentKeywords (foundKeywords domain urlObj)).
Qed.

Lemma ruleIp_extends domain st : extends st (ruleIp domain st).
Proof. revert st; unfold ruleIp; appends IpLiteral. Qed.

Lemma rulePunycode_extends domain st : extends st (rulePunycode domain st).
Proof. revert st; unfold rulePunycode; appends Punycode. Qed.

Lemma battery_extends {P : Platform} (urlToAnalyze : str) (urlObj : URL) :
  Forall (fun rule => forall st, extends st (rule st))
         (battery urlToAnalyze urlObj).
Proof.
  unfold battery; cbv zeta.
  repeat (apply Forall_cons; [intros st |]); [.. | apply Forall_nil].
  - apply ruleMisspelling_extends.
  - apply ruleHomograph_extends.
  - apply ruleHttps_extends.
  - apply ruleSubdomain_extends.
  - apply ruleLength_extends.
  - apply ruleRedirect_extends.
  - apply ruleNewDomain_extends.
  - apply ruleDownload_extends.
  - apply ruleBrand_extends.
  - apply ruleTld_extends.
  - apply ruleShortener_extends.
  - apply ruleKeywords_extends.
  - apply ruleIp_extends.
  - apply rulePunycode_extends.
Qed.

Lemma map_threatOf_nil (fs : list Finding) : map threatOf fs = [] -> fs = [].
Proof.
  destruct fs; [reflexivity | discriminate].
Qed.

(** ** The local variables at the [return] statement *)

Lemma noThreats_score (st : Vars.t) : Vars.score (noThreats st) = Vars.score st.
Proof.
  unfold noThreats; destruct (Vars.threats st); reflexivity.
Qed.

Lemma noThreats_riskLevel (st : Vars.t) :
  Vars.riskLevel (noThreats st) = Vars.riskLevel st.
Proof.
  unfold noThreats; destruct (Vars.threats st); reflexivity.
Qed.

Lemma noThreats_paired (st : Vars.t) (fs : list Finding) :
  pairedBy fs (Vars.threats st) (Vars.warnings st) ->
  exists fs', fs' <> []
    /\ pairedBy fs' (Vars.threats (noThreats st)) (Vars.warnings (noThreats st)).
Proof.
  intros [Ht Hw]; unfold noThreats.
  destruct (Vars.threats st) as [| t ts] eqn:E.
  - symmetry in Ht; apply map_threatOf_nil in Ht; subst fs.
    exists [NoThreat]; split; [discriminate |].
    simpl in Hw; unfold pairedBy; cbn [Vars.threats Vars.warnings].
    rewrite Hw; split; vm_compute; reflexivity.
  - exists fs; split.
    + intros ->; discriminate Ht.
    + split; [rewrite E; exact Ht | exact Hw].
Qed.

Lemma tryBlock_spec {P : Platform} (urlToAnalyze : str) (urlObj : URL) :
  let st := clamp (runRules (battery urlToAnalyze urlObj) initial) in
  0 <= Vars.score st <= 100
  /\ exists fs, pairedBy fs (Vars.threats st) (Vars.warnings st).
Proof.
  destruct (runRules_closed _ extends_refl extends_trans _
              (battery_extends urlToAnalyze urlObj) initial)
    as [Hs [fs [Ht Hw]]].
  cbn [Vars.score Vars.threats Vars.warnings initial app] in Hs, Ht, Hw.
  cbv zeta; unfold clamp; cbn [Vars.score Vars.threats Vars.warnings].
  split; [lia |].
  exists fs; split; assumption.
Qed.

Lemma catch_spec :
  Vars.riskLevel (catchInvalid initial) = suspicious
  /\ Vars.score (catchInvalid initial) = 30
  /\ pairedBy [InvalidUrl] (Vars.threats (catchInvalid initial))
              (Vars.warnings (catchInvalid initial)).
Proof.
  split; [| split; [| split]]; vm_compute; reflexivity.
Qed.

Lemma finalVars_spec {P : Platform} (urlToAnalyze : str) :
  0 <= Vars.score (finalVars urlToAnalyze) <= 100
  /\ exists fs, fs <> []
       /\ pairedBy fs (Vars.threats (finalVars urlToAnalyze))
                   (Vars.warnings (finalVars urlToAnalyze)).
Proof.
  unfold finalVars; rewrite noThreats_score.
  destruct (URL_parse urlToAnalyze) as [urlObj |].
  - destruct (tryBlock_spec urlToAnalyze urlObj) as [Hs [fs Hp]].
    split; [exact Hs | exact (noThreats_paired _ fs Hp)].
  - destruct catch_spec as [_ [Hs Hp]].
    split; [rewrite Hs; lia | exact (noThreats_paired _ _ Hp)].
Qed.

(* ================================================================== *)
(** ** General properties of a scan *)

(** C3: for every input the score of the result of [analyzeUrl] lies between
    0 and 100: it starts at 100, the rules only subtract non-negative
    penalties, the [try] block ends by clamping at 0, and the parse-failure
    path sets it to 30. *)
Theorem score_in_range {P : Platform} (rnd : Random) (urlToAnalyze : str) :
  0 <= score (analyzeUrl rnd urlToAnalyze) <= 100.
Proof.
  exact (proj1 (finalVars_spec urlToAnalyze)).
Qed.

(** C9: in every result of [analyzeUrl] the threats and the warnings have
    the same length and correspond position by position: they are the
    threat and the warning of one non-empty sequence of findings (rule
    firings, the no-threat sentinel or the parse-failure finding). *)
Theorem threats_warnings_correspond {P : Platform} (rnd : Random) (urlToAnalyze : str) :
  List.length (threats (analyzeUrl rnd urlToAnalyze))
  = List.length (warnings (analyzeUrl rnd urlToAnalyze))
  /\ exists fs, fs <> []
       /\ pairedBy fs (threats (analyzeUrl rnd urlToAnalyze))
                   (warnings (analyzeUrl rnd urlToAnalyze)).
Proof.
  destruct (finalVars_spec urlToAnalyze) as [_ [fs [Hne [Ht Hw]]]].
  unfold analyzeUrl; cbn [threats warnings].
  split.
  - rewrite Ht, Hw, !length_map; reflexivity.
  - exists fs; split; [exact Hne | split; assumption].
Qed.

(** The [catch] path of [analyzeUrl]: when its argument does not parse, the
    result is SUSPICIOUS with score 30 and the invalid-URL pair of messages;
    no rule contributes. *)
Lemma analyzeUrl_invalid {P : Platform} (rnd : Random) (urlToAnalyze : str) :
  URL_parse urlToAnalyze = None ->
  riskLevel (analyzeUrl rnd urlToAnalyze) = suspicious
  /\ score (analyzeUrl rnd urlToAnalyze) = 30
  /\ threats (analyzeUrl rnd urlToAnalyze) = [`"❌ Invalid URL format"]
  /\ warnings (analyzeUrl rnd urlToAnalyze)
     = [`"This URL format appears to be invalid or malformed."].
Proof.
  intros Hparse.
  unfold analyzeUrl; cbn [riskLevel score threats warnings].
  unfold finalVars; rewrite Hparse.
  split; [| split; [| split]]; vm_compute; reflexivity.
Qed.

(** C2, as the code has it, through the entry point [handleScan]: for every
    input that cannot be parsed as a URL after trimming and
    scheme-prefixing, the scan of an input that is not blank bypasses all
    rules and returns exactly SUSPICIOUS with score 30, the single threat
    "❌ Invalid URL format" and the single warning
    "This URL format appears to be invalid or malformed."; a blank input
    is not scanned and yields no result. *)
Theorem invalid_url_fallback {P : Platform} (rnd : Random) (raw : str) :
  URL_parse (normalize raw) = None ->
  (JS.trim raw = [] -> handleScan rnd raw = None)
  /\ (JS.trim raw <> [] ->
      exists r,
        handleScan rnd raw = Some r
        /\ url r = normalize raw
        /\ riskLevel r = suspicious
        /\ score r = 30
        /\ threats r = [`"❌ Invalid URL format"]
        /\ warnings r = [`"This URL format appears to be invalid or malformed."]).
Proof.
  intros Hparse; unfold handleScan.
  split; intros Htrim.
  - now rewrite Htrim.
  - destruct (JS.trim raw) as [| c t]; [contradiction |].
    exists (analyzeUrl rnd (normalize raw)).
    split; [reflexivity | split; [reflexivity |]].
    exact (analyzeUrl_invalid rnd (normalize raw) Hparse).
Qed.

Lemma invalid_url_fallback_witness :
  @URL_parse Ref.platform (normalize `"::::") = None
  /\ JS.trim `"::::" <> []
  /\ exists r,
       @handleScan Ref.platform Ref.rnd `"::::" = Some r
       /\ url r = normalize `"::::"
       /\ riskLevel r = suspicious
       /\ score r = 30
       /\ threats r = [`"❌ Invalid URL format"]
       /\ warnings r = [`"This URL format appears to be invalid or malformed."].
Proof.
  assert (H1 : @URL_parse Ref.platform (normalize `"::::") = None)
    by (vm_compute; reflexivity).
  assert (H2 : JS.trim `"::::" <> []) by (vm_compute; discriminate).
  split; [exact H1 | split; [exact H2 |]].
  exact (proj2 (@invalid_url_fallback Ref.platform Ref.rnd `"::::" H1) H2).
Defined.

(** C2, as the specification words it, fails in two ways.  The input "::::"
    is scanned as "https://::::", which does not parse, and the two messages
    of the result are not "Invalid URL format" and "malformed input".  And
    the empty input does not parse after prefixing either, yet it is not
    scanned: [handleScan] returns no result for it. *)
Lemma invalid_url_messages_differ :
  @URL_parse Ref.platform (normalize `"::::") = None
  /\ option_map threats (@handleScan Ref.platform Ref.rnd `"::::")
     <> Some [`"Invalid URL format"]
  /\ option_map warnings (@handleScan Ref.platform Ref.rnd `"::::")
     <> Some [`"malformed input"]
  /\ @URL_parse Ref.platform (normalize `"") = None
  /\ @handleScan Ref.platform Ref.rnd `"" = None.
Proof.
  split; [| split; [| split; [| split]]]; vm_compute;
    first [reflexivity | discriminate].
Qed.

(** C8: the classification is a function of the input string alone: two
    runs on the same string, whatever the random source returns, agree on
    [riskLevel], [score], [threats] and [warnings] (and on every detail
    field but [redirects] and [geoLocation]); the same holds through
    [handleScan]. *)
Theorem classification_deterministic {P : Platform} (rnd1 rnd2 : Random) (u : str) :
  sameClassification (analyzeUrl rnd1 u) (analyzeUrl rnd2 u)
  /\ match handleScan rnd1 u, handleScan rnd2 u with
     | Some a, Some b => sameClassification a b
     | None, None => True
     | _, _ => False
     end.
Proof.
  assert (H : forall v, sameClassification (analyzeUrl rnd1 v) (analyzeUrl rnd2 v)).
  { intros v; unfold sameClassification, analyzeUrl, mkDetailsOf.
    cbn [url riskLevel score threats warnings details domainAge ssl reputation
         typosquatting contentType registrar dnsRecords securityHeaders].
    repeat (split; [reflexivity |]); reflexivity. }
  split; [apply H |].
  unfold handleScan; destruct (JS.trim u); [exact I | apply H].
Qed.

(* ================================================================== *)
(** ** Concrete scans *)

(** On an input the platform parses as described, the scan is the scan on
    the platform that answers just that. *)
Lemma finalVars_parsed {P : Platform} (u host path : str) :
  parsesAs u host path ->
  @finalVars P u = @finalVars (asParsed host path) u.
Proof.
  intros [Hparse [Hh [Hu Hp]]].
  unfold finalVars, battery, ruleKeywords, foundKeywords.
  cbn [URL_parse toLowerCase asParsed].
  rewrite Hparse; cbn [hostname pathname].
  rewrite Hh, Hu, Hp; reflexivity.
Qed.

Lemma levelTrace_parsed {P : Platform} (u host path : str) :
  parsesAs u host path ->
  @levelTrace P u (mkURL host path) = @levelTrace (asParsed host path) u (mkURL host path).
Proof.
  intros [Hparse [Hh [Hu Hp]]].
  unfold levelTrace, battery, ruleKeywords, foundKeywords.
  cbn [URL_parse toLowerCase asParsed hostname pathname].
  rewrite Hh, Hu, Hp; reflexivity.
Qed.

Lemma ref_parsesAs (u host path : str) :
  Ref.parse u = Some (mkURL host path) ->
  Ref.lower host = host -> Ref.lower u = u -> Ref.lower path = path ->
  @parsesAs Ref.platform u host path.
Proof.
  intros H1 H2 H3 H4; repeat split; assumption.
Qed.

Ltac ref_parses := apply ref_parsesAs; vm_compute; reflexivity.

Ltac scan_parsed H :=
  unfold analyzeUrl, mkDetailsOf;
  cbn [riskLevel score threats warnings details typosquatting];
  rewrite (finalVars_parsed _ _ _ H).

(** C4: the scan of "https://secure-paypal-login.tk/verify?confirm=1"
    reports, in one result, a brand-impersonation finding (the host contains
    "paypal" and is no legitimate PayPal domain), a suspicious-TLD finding
    (the host ends with ".tk") and a keyword finding (verify, secure and
    login occur in host or path), and its level is DANGEROUS. *)
Theorem scan_secure_paypal_login {P : Platform} (rnd : Random) :
  let u := `"https://secure-paypal-login.tk/verify?confirm=1" in
  let host := `"secure-paypal-login.tk" in
  parsesAs u host `"/verify" ->
  riskLevel (analyzeUrl rnd u) = dangerous
  /\ threats (analyzeUrl rnd u)
     = [ `"🥷 Possible Paypal impersonation";
         `"🧪 High-risk domain extension: .tk";
         `"🚨 Multiple urgent keywords detected: verify, secure, login" ]
  /\ threats (analyzeUrl rnd u)
     = map threatOf [ Impersonation `"paypal"; RiskyTld `".tk";
                      UrgentKeywords [`"verify"; `"secure"; `"login"] ]
  /\ impersonationFires host = true
  /\ JS.endsWith `".tk" host = true
  /\ foundKeywords host (mkURL host `"/verify") = [`"verify"; `"secure"; `"login"].
Proof.
  intros u host H.
  assert (Hk : foundKeywords host (mkURL host `"/verify")
               = [`"verify"; `"secure"; `"login"]).
  { destruct H as [_ [_ [_ Hp]]].
    unfold foundKeywords; cbn [pathname]; rewrite Hp.
    vm_compute; reflexivity. }
  scan_parsed H.
  split; [| split; [| split; [| split; [| split]]]];
    try exact Hk; vm_compute; reflexivity.
Qed.

Lemma scan_secure_paypal_login_witness :
  let u := `"https://secure-paypal-login.tk/verify?confirm=1" in
  @parsesAs Ref.platform u `"secure-paypal-login.tk" `"/verify"
  /\ riskLevel (@analyzeUrl Ref.platform Ref.rnd u) = dangerous.
Proof.
  assert (H : @parsesAs Ref.platform
                `"https://secure-paypal-login.tk/verify?confirm=1"
                `"secure-paypal-login.tk" `"/verify") by ref_parses.
  split; [exact H |].
  exact (proj1 (@scan_secure_paypal_login Ref.platform Ref.rnd H)).
Defined.

(** C5: the scan of "https://gooogle.com/login" is DANGEROUS, its threats
    contain the misspelling finding that names "gooogle" as a misspelling of
    google, and its score is at most 30 (it is 30: only that rule fires). *)
Theorem scan_gooogle {P : Platform} (rnd : Random) :
  let u := `"https://gooogle.com/login" in
  parsesAs u `"gooogle.com" `"/login" ->
  riskLevel (analyzeUrl rnd u) = dangerous
  /\ In (threatOf (Misspelt `"gooogle" `"google")) (threats (analyzeUrl rnd u))
  /\ threats (analyzeUrl rnd u)
     = [ `"⚠️ Possible misspelling detected: " ++ quote ++ `"gooogle" ++ quote
           ++ `" (looks like google)" ]
  /\ score (analyzeUrl rnd u) <= 30
  /\ score (analyzeUrl rnd u) = 30.
Proof.
  intros u H.
  scan_parsed H.
  split; [| split; [| split; [| split]]].
  - vm_compute; reflexivity.
  - vm_compute; left; reflexivity.
  - vm_compute; reflexivity.
  - vm_compute; discriminate.
  - vm_compute; reflexivity.
Qed.

Lemma scan_gooogle_witness :
  let u := `"https://gooogle.com/login" in
  @parsesAs Ref.platform u `"gooogle.com" `"/login"
  /\ riskLevel (@analyzeUrl Ref.platform Ref.rnd u) = dangerous
  /\ score (@analyzeUrl Ref.platform Ref.rnd u) = 30.
Proof.
  assert (H : @parsesAs Ref.platform `"https://gooogle.com/login"
                `"gooogle.com" `"/login") by ref_parses.
  split; [exact H |].
  pose proof (@scan_gooogle Ref.platform Ref.rnd H) as R.
  split; [exact (proj1 R) | exact (proj2 (proj2 (proj2 (proj2 R))))].
Defined.

(** C10, as the code has it: the misspelling table lists "facebook" and
    "amazon" among their own misspellings, so on the legitimate host
    facebook.com the misspelling rule fires while the brand-impersonation
    rule stays silent.  For "https://facebook.com/" that is the only
    finding: DANGEROUS with score 100 - 70 = 30.  For "https://facebook.com"
    the level is DANGEROUS as well and the misspelling finding is present. *)
Theorem scan_facebook {P : Platform} (rnd : Random) :
  let host := `"facebook.com" in
  let finding := Misspelt `"facebook" `"facebook" in
  parsesAs `"https://facebook.com/" host `"/" ->
  parsesAs `"https://facebook.com" host `"/" ->
  (exists check, In check commonMisspellings
                 /\ correct check = `"facebook" /\ In `"facebook" (misspelled check))
  /\ (exists check, In check commonMisspellings
                    /\ correct check = `"amazon" /\ In `"amazon" (misspelled check))
  /\ misspellingFires host = true
  /\ impersonationFires host = false
  /\ riskLevel (analyzeUrl rnd `"https://facebook.com/") = dangerous
  /\ score (analyzeUrl rnd `"https://facebook.com/") = 30
  /\ threats (analyzeUrl rnd `"https://facebook.com/") = [threatOf finding]
  /\ riskLevel (analyzeUrl rnd `"https://facebook.com") = dangerous
  /\ In (threatOf finding) (threats (analyzeUrl rnd `"https://facebook.com")).
Proof.
  intros host finding H1 H2.
  split; [| split].
  - exists (mkMisspelling `"facebook" [`"faceb00k"; `"facebok"; `"facebook"]).
    split; [right; left; reflexivity |].
    split; [reflexivity | right; right; left; reflexivity].
  - exists (mkMisspelling `"amazon" [`"amaz0n"; `"amazon"; `"amazone"; `"amazom"]).
    split; [right; right; right; left; reflexivity |].
    split; [reflexivity | right; left; reflexivity].
  - unfold analyzeUrl; cbn [riskLevel score threats].
    rewrite (finalVars_parsed _ _ _ H1), (finalVars_parsed _ _ _ H2).
    split; [| split; [| split; [| split; [| split; [| split]]]]].
    + vm_compute; reflexivity.
    + vm_compute; reflexivity.
    + vm_compute; reflexivity.
    + vm_compute; reflexivity.
    + vm_compute; reflexivity.
    + vm_compute; reflexivity.
    + vm_compute; left; reflexivity.
Qed.

Lemma scan_facebook_witness :
  @parsesAs Ref.platform `"https://facebook.com/" `"facebook.com" `"/"
  /\ @parsesAs Ref.platform `"https://facebook.com" `"facebook.com" `"/"
  /\ score (@analyzeUrl Ref.platform Ref.rnd `"https://facebook.com/") = 30.
Proof.
  assert (H1 : @parsesAs Ref.platform `"https://facebook.com/" `"facebook.com" `"/")
    by ref_parses.
  assert (H2 : @parsesAs Ref.platform `"https://facebook.com" `"facebook.com" `"/")
    by ref_parses.
  split; [exact H1 | split; [exact H2 |]].
  pose proof (@scan_facebook Ref.platform Ref.rnd H1 H2) as R.
  exact (proj1 (proj2 (proj2 (proj2 (proj2 (proj2 R)))))).
Defined.

(** C10, as worded, fails at its own example: on "https://facebook.com" the
    file-download rule fires too (the input ends with ".com"), and the
    score is 0, not 30. *)
Lemma scan_facebook_score_not_30 :
  Ref.parse `"https://facebook.com" = Some (mkURL `"facebook.com" `"/")
  /\ threats (@analyzeUrl Ref.platform Ref.rnd `"https://facebook.com")
     = map threatOf [Misspelt `"facebook" `"facebook"; FileDownload]
  /\ score (@analyzeUrl Ref.platform Ref.rnd `"https://facebook.com") = 0
  /\ score (@analyzeUrl Ref.platform Ref.rnd `"https://facebook.com") <> 30.
Proof.
  split; [| split; [| split]]; vm_compute; try reflexivity; discriminate.
Qed.

(** ** The risk level along the battery *)

Lemma raises_refl (st : Vars.t) : raises st st.
Proof.
  unfold raises, level_le; lia.
Qed.

Lemma raises_trans (a b c : Vars.t) : raises a b -> raises b c -> raises a c.
Proof.
  unfold raises, level_le; lia.
Qed.

Lemma assign_dangerous_rises (r : RiskLevel) : level_le r (assign dangerous r).
Proof.
  destruct r; unfold level_le; simpl; lia.
Qed.

Lemma escalate_rises (r : RiskLevel) : level_le r (escalate r).
Proof.
  destruct r; unfold level_le; simpl; lia.
Qed.

Lemma escalate_is_max (r : RiskLevel) : escalate r = level_max r suspicious.
Proof.
  destruct r; reflexivity.
Qed.

Lemma assign_dangerous_is_max (r : RiskLevel) :
  assign dangerous r = level_max r dangerous.
Proof.
  destruct r; reflexivity.
Qed.

Lemma fire_raises (threat warning : str) (level : RiskLevel -> RiskLevel)
      (penalty : Z) (st : Vars.t) :
  (forall r, level_le r (level r)) ->
  raises st (fire threat warning level penalty st).
Proof.
  intros H; unfold raises, fire; cbn [Vars.riskLevel]; apply H.
Qed.

Ltac climbs :=
  descend raises_refl raises_trans; intros; apply fire_raises;
  first [exact assign_dangerous_rises | exact escalate_rises].

(** The eleven rules that assign DANGEROUS or escalate to SUSPICIOUS never
    lower the level. *)
Lemma rules_raise {P : Platform} (urlToAnalyze domain fullUrl : str) (urlObj : URL) :
  Forall (fun rule => forall st, raises st (rule st))
         [ ruleMisspelling domain; ruleHomograph domain; ruleHttps urlToAnalyze;
           ruleSubdomain domain; ruleLength fullUrl; ruleNewDomain domain;
           ruleDownload fullUrl; ruleBrand domain; ruleTld domain;
           ruleShortener domain; ruleKeywords domain urlObj ].
Proof.
  repeat (apply Forall_cons; [| ]); [.. | apply Forall_nil].
  - unfold ruleMisspelling; climbs.
  - unfold ruleHomograph; climbs.
  - unfold ruleHttps; climbs.
  - unfold ruleSubdomain; climbs.
  - unfold ruleLength; climbs.
  - unfold ruleNewDomain; climbs.
  - unfold ruleDownload; climbs.
  - unfold ruleBrand; climbs.
  - unfold ruleTld; climbs.
  - unfold ruleShortener; climbs.
  - unfold ruleKeywords; climbs.
Qed.

(** C1 does not hold of the code: three rules assign SUSPICIOUS outright,
    whatever the level was.  On "https://1.2.3.4/login/verify" the keyword
    rule raises the level to DANGEROUS and the IP-literal rule, which runs
    next, lowers it to SUSPICIOUS, the level of the result.  The
    open-redirect and punycode rules do the same to any state they fire on. *)
Theorem level_lowered_by_later_rule {P : Platform} (rnd : Random) :
  let u := `"https://1.2.3.4/login/verify" in
  parsesAs u `"1.2.3.4" `"/login/verify" ->
  levelTrace u (mkURL `"1.2.3.4" `"/login/verify")
  = [ safe; safe; safe; safe; safe; safe; safe; safe; safe; safe; safe; safe;
      dangerous; suspicious; suspicious ]
  /\ nonDecreasing (levelTrace u (mkURL `"1.2.3.4" `"/login/verify")) = false
  /\ riskLevel (analyzeUrl rnd u) = suspicious
  /\ (forall st, Vars.riskLevel (ruleIp `"1.2.3.4" st) = suspicious)
  /\ (forall st, Vars.riskLevel
                   (ruleRedirect `"https://gooogle.com/redirect?url=x" st)
                 = suspicious)
  /\ (forall st, Vars.riskLevel (rulePunycode `"xn--80ak6aa92e.com" st)
                 = suspicious).
Proof.
  intros u H.
  rewrite (levelTrace_parsed _ _ _ H).
  unfold analyzeUrl; cbn [riskLevel]; rewrite (finalVars_parsed _ _ _ H).
  split; [| split; [| split; [| split; [| split]]]];
    try (intros [ts ws level sc]); vm_compute; reflexivity.
Qed.

Lemma level_lowered_by_later_rule_witness :
  let u := `"https://1.2.3.4/login/verify" in
  @parsesAs Ref.platform u `"1.2.3.4" `"/login/verify"
  /\ riskLevel (@analyzeUrl Ref.platform Ref.rnd u) = suspicious.
Proof.
  assert (H : @parsesAs Ref.platform `"https://1.2.3.4/login/verify"
                `"1.2.3.4" `"/login/verify") by ref_parses.
  split; [exact H |].
  exact (proj1 (proj2 (proj2 (@level_lowered_by_later_rule Ref.platform Ref.rnd H)))).
Defined.

(** ** The typosquatting flag *)

Lemma silent_refl (st : Vars.t) : silent st st.
Proof.
  reflexivity.
Qed.

Lemma silent_trans (a b c : Vars.t) : silent a b -> silent b c -> silent a c.
Proof.
  unfold silent; intros H1 H2; now rewrite H2.
Qed.

Lemma flagOf_snoc (ts : list str) (t : str) :
  flagOf (ts ++ [t]) = flagOf ts || flagged t.
Proof.
  unfold flagOf; rewrite existsb_app; cbn [existsb]; now rewrite orb_false_r.
Qed.

Lemma fire_silent (threat warning : str) (level : RiskLevel -> RiskLevel)
      (penalty : Z) (st : Vars.t) :
  flagged threat = false -> silent st (fire threat warning level penalty st).
Proof.
  intros H; unfold silent, fire; cbn [Vars.threats].
  now rewrite flagOf_snoc, H, orb_false_r.
Qed.

(** The messages built from data. *)

Lemma digits_are_digits (u : Decimal.uint) :
  Forall (fun c => JS.isDigit c = true) (JS.digits u).
Proof.
  induction u; simpl; constructor; try reflexivity; assumption.
Qed.

Lemma includes_skips_digits (x : N) (needle ds rest : str) :
  JS.isDigit x = false ->
  Forall (fun c => JS.isDigit c = true) ds ->
  JS.includes (x :: needle) (ds ++ rest) = JS.includes (x :: needle) rest.
Proof.
  intros Hx Hds; induction Hds as [| d ds Hd _ IH]; [reflexivity |].
  cbn [app JS.includes JS.startsWith]; rewrite IH.
  destruct (N.eqb_spec x d) as [-> | _]; [congruence | reflexivity].
Qed.

Lemma long_url_unflagged (n : nat) : flagged (threatOf (LongUrl n)) = false.
Proof.
  unfold flagged, threatOf.
  assert (H : forall needle X,
             needle = `"typosquatting" \/ needle = `"impersonation" ->
             JS.includes needle
               (`"🧩 Unusually long or obfuscated URL detected (" ++ X)
             = JS.includes needle X).
  { intros needle X [-> | ->]; vm_compute; reflexivity. }
  rewrite !H by (auto).
  assert (U1 : `"typosquatting" = 116%N :: `"yposquatting") by (vm_compute; reflexivity).
  assert (U2 : `"impersonation" = 105%N :: `"mpersonation") by (vm_compute; reflexivity).
  rewrite U1 at 1; rewrite U2 at 1.
  unfold JS.ofNat.
  rewrite !includes_skips_digits
    by first [apply digits_are_digits | reflexivity].
  vm_compute; reflexivity.
Qed.

Lemma picks_weaken {A : Type} (n : nat) (x : A) (l : list A) (s : list A) :
  In s (picks n l) -> In s (picks n (x :: l)).
Proof.
  destruct n as [| n]; intros H.
  - destruct l; exact H.
  - cbn [picks]; apply in_or_app; right; exact H.
Qed.

Lemma firstn_filter_picked {A : Type} (f : A -> bool) (l : list A) :
  forall n, In (firstn n (filter f l)) (picks n l).
Proof.
  induction l as [| x l IH]; intros n.
  - destruct n; simpl; now left.
  - simpl filter; destruct (f x).
    + destruct n as [| n]; simpl; [now left |].
      apply in_or_app; left; apply in_map, IH.
    + apply picks_weaken, IH.
Qed.

Lemma keywords_unflagged {P : Platform} (domain : str) (urlObj : URL) :
  flagged (`"🚨 Multiple urgent keywords detected: "
             ++ JS.join `", " (firstn 3 (foundKeywords domain urlObj)))
  = false.
Proof.
  assert (T : forallb (fun l => negb (flagged
                 (`"🚨 Multiple urgent keywords detected: " ++ JS.join `", " l)))
                (picks 3 phishingKeywords) = true)
    by (vm_compute; reflexivity).
  rewrite forallb_forall in T.
  apply negb_true_iff, T.
  unfold foundKeywords; apply firstn_filter_picked.
Qed.

Lemma misspelling_unflagged (check : Misspelling) (m : str) :
  In check commonMisspellings -> In m (misspelled check) ->
  flagged (threatOf (Misspelt m (correct check))) = false.
Proof.
  assert (T : forallb (fun check => forallb (fun m =>
                 negb (flagged (threatOf (Misspelt m (correct check)))))
                 (misspelled check)) commonMisspellings = true)
    by (vm_compute; reflexivity).
  rewrite forallb_forall in T.
  intros Hc Hm; specialize (T check Hc).
  rewrite forallb_forall in T.
  apply negb_true_iff, T, Hm.
Qed.

Lemma tld_unflagged (tld : str) :
  In tld suspiciousTlds -> flagged (threatOf (RiskyTld tld)) = false.
Proof.
  assert (T : forallb (fun tld => negb (flagged (threatOf (RiskyTld tld))))
                      suspiciousTlds = true)
    by (vm_compute; reflexivity).
  rewrite forallb_forall in T.
  intros H; apply negb_true_iff, T, H.
Qed.

Lemma brand_flagged (pattern : BrandPattern) :
  In pattern brandPatterns ->
  flagged (threatOf (Impersonation (brand pattern))) = true.
Proof.
  assert (T : forallb (fun p => flagged (threatOf (Impersonation (brand p))))
                      brandPatterns = true)
    by (vm_compute; reflexivity).
  rewrite forallb_forall in T; exact (T pattern).
Qed.

(** The flag test on a message written out as in the source. *)
Lemma flagged_as (f : Finding) (threat : str) (b : bool) :
  threatOf f = threat -> flagged (threatOf f) = b -> flagged threat = b.
Proof.
  intros <- H; exact H.
Qed.

(** No rule but the brand rule changes the flag. *)

Ltac mute :=
  descend silent_refl silent_trans; intros; apply fire_silent.

Lemma ruleMisspelling_silent domain st : silent st (ruleMisspelling domain st).
Proof.
  revert st; unfold ruleMisspelling.
  apply (forEach_closed _ silent_refl silent_trans); intros check Hc.
  apply (forEach_closed _ silent_refl silent_trans); intros m Hm.
  mute.
  apply (flagged_as (Misspelt m (correct check))); [reflexivity |].
  now apply misspelling_unflagged.
Qed.

Lemma ruleHomograph_silent domain st : silent st (ruleHomograph domain st).
Proof. revert st; unfold ruleHomograph; mute; vm_compute; reflexivity. Qed.

Lemma ruleHttps_silent u st : silent st (ruleHttps u st).
Proof. revert st; unfold ruleHttps; mute; vm_compute; reflexivity. Qed.

Lemma ruleSubdomain_silent domain st : silent st (ruleSubdomain domain st).
Proof. revert st; unfold ruleSubdomain; mute; vm_compute; reflexivity. Qed.

Lemma ruleLength_silent fullUrl st : silent st (ruleLength fullUrl st).
Proof.
  revert st; unfold ruleLength; mute.
  apply (flagged_as (LongUrl (List.length fullUrl))); [reflexivity |].
  apply long_url_unflagged.
Qed.

Lemma ruleRedirect_silent fullUrl st : silent st (ruleRedirect fullUrl st).
Proof. revert st; unfold ruleRedirect; mute; vm_compute; reflexivity. Qed.

Lemma ruleNewDomain_silent domain st : silent st (ruleNewDomain domain st).
Proof. revert st; unfold ruleNewDomain; mute; vm_compute; reflexivity. Qed.

Lemma ruleDownload_silent fullUrl st : silent st (ruleDownload fullUrl st).
Proof. revert st; unfold ruleDownload; mute; vm_compute; reflexivity. Qed.

Lemma ruleTld_silent domain st : silent st (ruleTld domain st).
Proof.
  revert st; unfold ruleTld.
  apply (forFirst_closed _ silent_refl silent_trans); intros tld Hin.
  mute.
  apply (flagged_as (RiskyTld tld)); [reflexivity |].
  now apply tld_unflagged.
Qed.

Lemma ruleShortener_silent domain st : silent st (ruleShortener domain st).
Proof. revert st; unfold ruleShortener; mute; vm_compute; reflexivity. Qed.

Lemma ruleKeywords_silent {P : Platform} domain urlObj st :
  silent st (ruleKeywords domain urlObj st).
Proof.
  revert st; unfold ruleKeywords; mute.
  apply keywords_unflagged.
Qed.

Lemma ruleIp_silent domain st : silent st (ruleIp domain st).
Proof. revert st; unfold ruleIp; mute; vm_compute; reflexivity. Qed.

Lemma rulePunycode_silent domain st : silent st (rulePunycode domain st).
Proof. revert st; unfold rulePunycode; mute; vm_compute; reflexivity. Qed.

(** The brand rule sets the flag exactly when it fires. *)
Lemma ruleBrand_flag (domain : str) (st : Vars.t) :
  flagOf (Vars.threats (ruleBrand domain st))
  = flagOf (Vars.threats st) || impersonationFires domain.
Proof.
  unfold ruleBrand, impersonationFires, forEach.
  assert (H : forall p, In p brandPatterns ->
                        flagged (threatOf (Impersonation (brand p))) = true)
    by exact brand_flagged.
  revert st H; generalize brandPatterns as l.
  induction l as [| p l IH]; intros st H; cbn [fold_left existsb].
  - now rewrite orb_false_r.
  - rewrite IH by (intros q Hq; apply H; now right).
    unfold when.
    destruct (JS.includes (brand p) domain); cbn [andb orb]; [| reflexivity].
    destruct (isLegitimate domain p); cbn [negb orb]; [reflexivity |].
    unfold fire; cbn [Vars.threats].
    rewrite flagOf_snoc.
    rewrite (flagged_as (Impersonation (brand p))
               (`"🥷 Possible " ++ JS.capitalize (brand p) ++ `" impersonation")
               true eq_refl)
      by (apply H; now left).
    now rewrite !orb_true_r.
Qed.

Lemma noThreats_silent (st : Vars.t) : silent st (noThreats st).
Proof.
  unfold silent, noThreats.
  destruct (Vars.threats st) eqn:E; cbn [Vars.threats]; [| now rewrite E].
  vm_compute; reflexivity.
Qed.

Lemma battery_flag {P : Platform} (urlToAnalyze : str) (urlObj : URL) :
  flagOf (Vars.threats (runRules (battery urlToAnalyze urlObj) initial))
  = impersonationFires (toLowerCase (hostname urlObj)).
Proof.
  unfold battery, runRules; cbv zeta; cbn [fold_left].
  rewrite rulePunycode_silent, ruleIp_silent, ruleKeywords_silent,
    ruleShortener_silent, ruleTld_silent, ruleBrand_flag.
  rewrite ruleDownload_silent, ruleNewDomain_silent, ruleRedirect_silent,
    ruleLength_silent, ruleSubdomain_silent, ruleHttps_silent,
    ruleHomograph_silent, ruleMisspelling_silent.
  reflexivity.
Qed.

(** C6, as the code has it: the typosquatting flag of the details is true
    if and only if the brand-impersonation rule fired (the host contains a
    brand name and is none of the legitimate domains of that brand).  No
    other finding sets it: not the misspelling finding, not the
    parse-failure finding. *)
Theorem typosquatting_flag_is_impersonation {P : Platform} (rnd : Random) (u : str) :
  typosquatting (details (analyzeUrl rnd u))
  = match URL_parse u with
    | Some urlObj => impersonationFires (toLowerCase (hostname urlObj))
    | None => false
    end.
Proof.
  change (typosquatting (details (analyzeUrl rnd u)))
    with (flagOf (Vars.threats (finalVars u))).
  unfold finalVars; rewrite noThreats_silent.
  destruct (URL_parse u) as [urlObj |].
  - unfold clamp; cbn [Vars.threats]; apply battery_flag.
  - vm_compute; reflexivity.
Qed.

(** C6, as worded, fails: on "https://gooogle.com/login" the misspelling
    rule fires, its finding is the only one, and the flag is false. *)
Lemma misspelling_alone_not_flagged :
  let u := `"https://gooogle.com/login" in
  Ref.parse u = Some (mkURL `"gooogle.com" `"/login")
  /\ misspellingFires `"gooogle.com" = true
  /\ threats (@analyzeUrl Ref.platform Ref.rnd u)
     = [threatOf (Misspelt `"gooogle" `"google")]
  /\ typosquatting (details (@analyzeUrl Ref.platform Ref.rnd u)) = false.
Proof.
  split; [| split; [| split]]; vm_compute; reflexivity.
Qed.

(* ================================================================== *)
(** ** The entry point: trimming and scheme prefixing *)

Lemma trimStart_nonws (c : N) (s : str) :
  JS.isWhiteSpace c = false -> JS.trimStart (c :: s) = c :: s.
Proof.
  intros H; simpl; now rewrite H.
Qed.

Lemma trimStart_snoc (a : str) (c : N) :
  JS.isWhiteSpace c = false -> JS.trimStart (a ++ [c]) = JS.trimStart a ++ [c].
Proof.
  intros H; induction a as [| x a IH]; simpl.
  - now rewrite H.
  - destruct (JS.isWhiteSpace x); [exact IH | reflexivity].
Qed.

Lemma trimStart_app (a b : str) :
  JS.trimStart a <> [] -> JS.trimStart (a ++ b) = JS.trimStart a ++ b.
Proof.
  induction a as [| x a IH]; simpl; intros H.
  - congruence.
  - destruct (JS.isWhiteSpace x); [apply IH, H | reflexivity].
Qed.

Lemma trimStart_suffix (s : str) : exists w, s = w ++ JS.trimStart s.
Proof.
  induction s as [| x s [w IH]]; simpl.
  - exists []; reflexivity.
  - destruct (JS.isWhiteSpace x).
    + exists (x :: w); simpl; now rewrite <- IH.
    + exists []; reflexivity.
Qed.

Lemma trimEnd_nonws (c : N) (s : str) :
  JS.isWhiteSpace c = false -> JS.trimEnd (c :: s) = c :: JS.trimEnd s.
Proof.
  intros H; unfold JS.trimEnd; simpl rev.
  rewrite trimStart_snoc by exact H.
  rewrite rev_app_distr; reflexivity.
Qed.

Lemma trimEnd_cons (x : N) (s : str) :
  JS.trimEnd s <> [] -> JS.trimEnd (x :: s) = x :: JS.trimEnd s.
Proof.
  intros H; unfold JS.trimEnd in *; simpl rev.
  rewrite trimStart_app.
  - rewrite rev_app_distr; reflexivity.
  - intros E; apply H; rewrite E; reflexivity.
Qed.

Lemma trimEnd_app (p s : str) :
  JS.trimEnd s <> [] -> JS.trimEnd (p ++ s) = p ++ JS.trimEnd s.
Proof.
  intros H; induction p as [| x p IH]; simpl; [reflexivity |].
  rewrite trimEnd_cons; [now rewrite IH |].
  rewrite IH; intros E; apply app_eq_nil in E; destruct E; contradiction.
Qed.

Lemma trimEnd_prefix (s : str) : exists w, s = JS.trimEnd s ++ w.
Proof.
  destruct (trimStart_suffix (rev s)) as [w Hw].
  exists (rev w); unfold JS.trimEnd.
  rewrite <- rev_app_distr, <- Hw, rev_involutive; reflexivity.
Qed.

Lemma startsWith_app (p s : str) : JS.startsWith p (p ++ s) = true.
Proof.
  induction p as [| x p IH]; simpl; [reflexivity |].
  now rewrite N.eqb_refl, IH.
Qed.

Lemma startsWith_prefix (p a b : str) :
  JS.startsWith p a = true -> JS.startsWith p (a ++ b) = true.
Proof.
  revert a; induction p as [| x p IH]; intros a H; [reflexivity |].
  destruct a as [| y a]; simpl in *; [discriminate |].
  apply andb_true_iff in H; destruct H as [H1 H2].
  now rewrite H1, (IH a H2).
Qed.

Lemma https_units : `"https://" = [104; 116; 116; 112; 115; 58; 47; 47]%N.
Proof.
  vm_compute; reflexivity.
Qed.

(** An input with nothing but white space is not scanned at all. *)
Lemma handleScan_blank {P : Platform} (rnd : Random) (raw : str) :
  JS.trim raw = [] -> handleScan rnd raw = None.
Proof.
  intros H; unfold handleScan; now rewrite H.
Qed.

(** What [handleScan] analyses, for an input that begins with a character
    other than white space. *)
Lemma handleScan_nonws {P : Platform} (rnd : Random) (c : N) (rest : str) :
  JS.isWhiteSpace c = false ->
  JS.trim (c :: rest) = c :: JS.trimEnd rest
  /\ handleScan rnd (c :: rest) = Some (analyzeUrl rnd (normalize (c :: rest))).
Proof.
  intros Hc.
  assert (T : JS.trim (c :: rest) = c :: JS.trimEnd rest).
  { unfold JS.trim; rewrite trimStart_nonws by exact Hc.
    now apply trimEnd_nonws. }
  split; [exact T |].
  unfold handleScan; now rewrite T.
Qed.

(** C7, as the code has it: for every input that is not empty, does not
    begin with white space and does not start with "http://" or
    "https://", [handleScan] analyses "https://" followed by the trimmed
    input, and scanning the input with "https://" prepended gives the very
    same result. *)
Theorem scheme_prefix_roundtrip {P : Platform} (rnd : Random) (c : N) (rest : str) :
  let raw := c :: rest in
  JS.isWhiteSpace c = false ->
  JS.startsWith `"http://" raw = false ->
  JS.startsWith `"https://" raw = false ->
  handleScan rnd raw = Some (analyzeUrl rnd (`"https://" ++ JS.trim raw))
  /\ handleScan rnd (`"https://" ++ raw) = handleScan rnd raw.
Proof.
  intros raw Hc Hhttp Hhttps; subst raw.
  destruct (handleScan_nonws rnd c rest Hc) as [T Hscan].
  assert (Te : JS.trimEnd (c :: rest) = JS.trim (c :: rest)).
  { unfold JS.trim; now rewrite trimStart_nonws. }
  assert (Hpfx : forall p, JS.startsWith p (c :: rest) = false ->
                           JS.startsWith p (JS.trim (c :: rest)) = false).
  { intros p Hp.
    destruct (JS.startsWith p (JS.trim (c :: rest))) eqn:E; [| reflexivity].
    destruct (trimEnd_prefix (c :: rest)) as [w Hw].
    rewrite Te in Hw; rewrite Hw in Hp.
    now rewrite (startsWith_prefix _ _ w E) in Hp. }
  assert (N1 : normalize (c :: rest) = `"https://" ++ JS.trim (c :: rest)).
  { unfold normalize.
    now rewrite (Hpfx _ Hhttp), (Hpfx _ Hhttps). }
  assert (T2 : JS.trim (`"https://" ++ c :: rest)
               = `"https://" ++ JS.trim (c :: rest)).
  { unfold JS.trim at 1.
    replace (JS.trimStart (`"https://" ++ c :: rest))
      with (`"https://" ++ c :: rest)
      by (rewrite https_units; reflexivity).
    rewrite trimEnd_app; [now rewrite Te |].
    rewrite Te, T; discriminate. }
  assert (N2 : normalize (`"https://" ++ c :: rest)
               = `"https://" ++ JS.trim (c :: rest)).
  { unfold normalize; rewrite T2, startsWith_app.
    now rewrite andb_false_r. }
  rewrite Hscan, N1; split; [reflexivity |].
  unfold handleScan; rewrite N2, T2.
  rewrite https_units at 1; reflexivity.
Qed.

Lemma scheme_prefix_roundtrip_witness :
  JS.isWhiteSpace 101 = false
  /\ JS.startsWith `"http://" `"example.com" = false
  /\ JS.startsWith `"https://" `"example.com" = false
  /\ @handleScan Ref.platform Ref.rnd (`"https://" ++ `"example.com")
     = @handleScan Ref.platform Ref.rnd `"example.com".
Proof.
  assert (E : `"example.com" = 101%N :: `"xample.com") by (vm_compute; reflexivity).
  assert (H1 : JS.isWhiteSpace 101 = false) by (vm_compute; reflexivity).
  assert (H2 : JS.startsWith `"http://" (101%N :: `"xample.com") = false)
    by (vm_compute; reflexivity).
  assert (H3 : JS.startsWith `"https://" (101%N :: `"xample.com") = false)
    by (vm_compute; reflexivity).
  rewrite E.
  split; [exact H1 | split; [exact H2 | split; [exact H3 |]]].
  exact (proj2 (@scheme_prefix_roundtrip Ref.platform Ref.rnd 101%N `"xample.com"
                  H1 H2 H3)).
Defined.

(** C7, as worded, fails in two ways.  The empty input does not start with
    a scheme and is not scanned at all, while "https://" is scanned (and
    found invalid).  And " example.org", with a leading space, is trimmed
    and scanned as "https://example.org", while "https:// example.org" is
    scanned as it stands and does not parse. *)
Lemma scheme_prefix_not_for_every_input :
  JS.startsWith `"http://" `"" = false
  /\ JS.startsWith `"https://" `"" = false
  /\ @handleScan Ref.platform Ref.rnd `"" = None
  /\ option_map riskLevel (@handleScan Ref.platform Ref.rnd (`"https://" ++ `""))
     = Some suspicious
  /\ JS.startsWith `"http://" `" example.org" = false
  /\ JS.startsWith `"https://" `" example.org" = false
  /\ option_map (fun r => (riskLevel r, score r))
                (@handleScan Ref.platform Ref.rnd `" example.org")
     = Some (safe, 100)
  /\ option_map (fun r => (riskLevel r, score r))
                (@handleScan Ref.platform Ref.rnd (`"https://" ++ `" example.org"))
     = Some (suspicious, 30).
Proof.
  repeat (split; [vm_compute; reflexivity |]); vm_compute; reflexivity.
Qed.

(* ================================================================== *)
(** * Further properties of the engine *)

(** ** Score accounting *)

Lemma totalPenalty_app (a b : list Finding) :
  totalPenalty (a ++ b) = totalPenalty a + totalPenalty b.
Proof.
  unfold totalPenalty; induction a as [| f a IH]; cbn [app fold_right]; lia.
Qed.

Lemma accounts_refl (st : Vars.t) : accounts st st.
Proof.
  exists []; cbn [map totalPenalty fold_right]; rewrite !app_nil_r.
  repeat split; lia.
Qed.

Lemma accounts_trans (a b c : Vars.t) : accounts a b -> accounts b c -> accounts a c.
Proof.
  intros [f1 [Ht1 [Hw1 Hs1]]] [f2 [Ht2 [Hw2 Hs2]]].
  exists (f1 ++ f2).
  rewrite Ht2, Hw2, Ht1, Hw1, !map_app, !app_assoc, totalPenalty_app.
  split; [reflexivity | split; [reflexivity | lia]].
Qed.

Lemma fire_accounts (f : Finding) (threat warning : str)
      (level : RiskLevel -> RiskLevel) (penalty : Z) (st : Vars.t) :
  threatOf f = threat -> warningOf f = warning -> penaltyOf f = penalty ->
  accounts st (fire threat warning level penalty st).
Proof.
  intros <- <- <-; exists [f]; unfold fire; cbn [Vars.threats Vars.warnings Vars.score].
  split; [reflexivity | split; [reflexivity |]].
  unfold totalPenalty; cbn [fold_right]; lia.
Qed.

Lemma brand_penalty (pattern : BrandPattern) :
  In pattern brandPatterns ->
  penaltyOf (Impersonation (brand pattern)) = severity pattern.
Proof.
  assert (T : forallb (fun p => penaltyOf (Impersonation (brand p)) =? severity p)
                      brandPatterns = true)
    by (vm_compute; reflexivity).
  rewrite forallb_forall in T.
  intros H; apply Z.eqb_eq, T, H.
Qed.

Ltac charges f :=
  descend accounts_refl accounts_trans;
  intros; apply (fire_accounts f); reflexivity.

Lemma battery_accounts {P : Platform} (urlToAnalyze : str) (urlObj : URL) :
  Forall (fun rule => forall st, accounts st (rule st))
         (battery urlToAnalyze urlObj).
Proof.
  unfold battery; cbv zeta.
  repeat (apply Forall_cons; [| ]); [.. | apply Forall_nil].
  - unfold ruleMisspelling.
    apply (forEach_closed _ accounts_refl accounts_trans); intros check _.
    apply (forEach_closed _ accounts_refl accounts_trans); intros m _.
    charges (Misspelt m (correct check)).
  - unfold ruleHomograph; charges Homograph.
  - unfold ruleHttps; charges NoHttps.
  - unfold ruleSubdomain; charges FakeSubdomain.
  - unfold ruleLength;
      charges (LongUrl (List.length (toLowerCase urlToAnalyze))).
  - unfold ruleRedirect; charges OpenRedirect.
  - unfold ruleNewDomain; charges NewDomain.
  - unfold ruleDownload; charges FileDownload.
  - unfold ruleBrand.
    apply (forEach_closed _ accounts_refl accounts_trans); intros pattern Hin.
    descend accounts_refl accounts_trans; intros st.
    apply (fire_accounts (Impersonation (brand pattern)));
      [reflexivity | reflexivity | now apply brand_penalty].
  - unfold ruleTld.
    apply (forFirst_closed _ accounts_refl accounts_trans); intros tld _.
    charges (RiskyTld tld).
  - unfold ruleShortener; charges Shortener.
  - unfold ruleKeywords;
      charges (UrgentKeywords (foundKeywords (toLowerCase (hostname urlObj)) urlObj)).
  - unfold ruleIp; charges IpLiteral.
  - unfold rulePunycode; charges Punycode.
Qed.

(** The score of a result is 100 minus the penalties of the findings it
    reports, floored at 0: every firing is charged, repeated firings of one
    rule are charged each time, and nothing else moves the score.  On the
    parse-failure path the single finding comes with the fixed score 30. *)
Theorem score_accounting {P : Platform} (rnd : Random) (u : str) :
  exists fs,
    pairedBy fs (threats (analyzeUrl rnd u)) (warnings (analyzeUrl rnd u))
    /\ match URL_parse u with
       | Some _ => score (analyzeUrl rnd u) = Z.max 0 (100 - totalPenalty fs)
       | None => fs = [InvalidUrl] /\ score (analyzeUrl rnd u) = 30
       end.
Proof.
  unfold analyzeUrl; cbn [threats warnings score]; unfold finalVars.
  destruct (URL_parse u) as [urlObj |].
  - destruct (runRules_closed _ accounts_refl accounts_trans _
                (battery_accounts u urlObj) initial) as [fs [Ht [Hw Hs]]].
    cbn [initial Vars.threats Vars.warnings Vars.score app] in Ht, Hw, Hs.
    unfold noThreats, clamp; cbn [Vars.threats Vars.warnings Vars.score].
    rewrite Ht, Hw, Hs.
    destruct fs as [| f fs]; cbn [map app Vars.threats Vars.warnings Vars.score].
    + exists [NoThreat]; split; [split; vm_compute; reflexivity | reflexivity].
    + exists (f :: fs); split; [split; reflexivity | reflexivity].
  - exists [InvalidUrl]; split; [split; vm_compute; reflexivity |].
    split; [reflexivity | vm_compute; reflexivity].
Qed.

(** ** Verdict, score and detail labels *)

Lemma keepsCoherent_refl (st : Vars.t) : keepsCoherent st st.
Proof.
  intros H; exact H.
Qed.

Lemma keepsCoherent_trans (a b c : Vars.t) :
  keepsCoherent a b -> keepsCoherent b c -> keepsCoherent a c.
Proof.
  unfold keepsCoherent; auto.
Qed.

Lemma snoc_not_nil {A : Type} (l : list A) (x : A) : l ++ [x] <> [].
Proof.
  destruct l; discriminate.
Qed.

Lemma coherent_le_100 (st : Vars.t) : coherent st -> Vars.score st <= 100.
Proof.
  unfold coherent; destruct (Vars.riskLevel st); intros H; lia.
Qed.

Lemma fire_dangerous_coherent (threat warning : str) (penalty : Z) (st : Vars.t) :
  35 <= penalty ->
  keepsCoherent st (fire threat warning (assign dangerous) penalty st).
Proof.
  intros Hp H; pose proof (coherent_le_100 st H) as Hs.
  unfold coherent, fire, assign; cbn [Vars.riskLevel Vars.score Vars.threats].
  split; [lia | apply snoc_not_nil].
Qed.

Lemma fire_suspicious_coherent (threat warning : str) (penalty : Z) (st : Vars.t) :
  20 <= penalty ->
  keepsCoherent st (fire threat warning (assign suspicious) penalty st).
Proof.
  intros Hp H; pose proof (coherent_le_100 st H) as Hs.
  unfold coherent, fire, assign; cbn [Vars.riskLevel Vars.score Vars.threats].
  split; [lia | apply snoc_not_nil].
Qed.

Lemma fire_escalate_coherent (threat warning : str) (penalty : Z) (st : Vars.t) :
  20 <= penalty ->
  keepsCoherent st (fire threat warning escalate penalty st).
Proof.
  intros Hp H; unfold coherent, fire, escalate in *.
  cbn [Vars.riskLevel Vars.score Vars.threats].
  destruct (Vars.riskLevel st); (split; [lia | apply snoc_not_nil]).
Qed.

Lemma brand_severity_ge_35 (pattern : BrandPattern) :
  In pattern brandPatterns -> 35 <= severity pattern.
Proof.
  assert (H : Forall (fun p => 35 <= severity p) brandPatterns)
    by (repeat constructor; simpl; lia).
  rewrite Forall_forall in H; apply H.
Qed.

Ltac settles :=
  descend keepsCoherent_refl keepsCoherent_trans; intros;
  first [ apply fire_dangerous_coherent
        | apply fire_suspicious_coherent
        | apply fire_escalate_coherent ];
  try lia.

Lemma battery_coherent {P : Platform} (urlToAnalyze : str) (urlObj : URL) :
  Forall (fun rule => forall st, keepsCoherent st (rule st))
         (battery urlToAnalyze urlObj).
Proof.
  unfold battery; cbv zeta.
  repeat (apply Forall_cons; [| ]); [.. | apply Forall_nil].
  - unfold ruleMisspelling; settles.
  - unfold ruleHomograph; settles.
  - unfold ruleHttps; settles.
  - unfold ruleSubdomain; settles.
  - unfold ruleLength; settles.
  - unfold ruleRedirect; settles.
  - unfold ruleNewDomain; settles.
  - unfold ruleDownload; settles.
  - unfold ruleBrand.
    apply (forEach_closed _ keepsCoherent_refl keepsCoherent_trans);
      intros pattern Hin.
    settles; now apply brand_severity_ge_35.
  - unfold ruleTld; settles.
  - unfold ruleShortener; settles.
  - unfold ruleKeywords; settles.
  - unfold ruleIp; settles.
  - unfold rulePunycode; settles.
Qed.

Lemma finalVars_coherent {P : Platform} (u : str) :
  match Vars.riskLevel (finalVars u) with
  | safe =>
    Vars.score (finalVars u) = 100
    /\ Vars.threats (finalVars u) = [`"✅ No obvious threats detected"]
    /\ Vars.warnings (finalVars u)
       = [`"This URL appears to be safe, but always exercise caution when clicking links."]
  | suspicious => Vars.score (finalVars u) <= 80
  | dangerous => Vars.score (finalVars u) <= 65
  end.
Proof.
  unfold finalVars.
  destruct (URL_parse u) as [urlObj |].
  - assert (C : coherent (runRules (battery u urlObj) initial)).
    { apply (runRules_closed _ keepsCoherent_refl keepsCoherent_trans _
               (battery_coherent u urlObj) initial).
      unfold coherent, initial; cbn [Vars.riskLevel Vars.score Vars.threats Vars.warnings].
      repeat split; reflexivity. }
    revert C; generalize (runRules (battery u urlObj) initial) as st.
    intros [ts ws level sc]; unfold coherent, noThreats, clamp.
    cbn [Vars.riskLevel Vars.score Vars.threats Vars.warnings].
    destruct level.
    + intros [-> [-> ->]]; cbn [Vars.riskLevel Vars.score Vars.threats Vars.warnings app].
      split; [reflexivity | split; reflexivity].
    + intros [Hs Hne]; destruct ts; [congruence |].
      cbn [Vars.riskLevel Vars.score]; lia.
    + intros [Hs Hne]; destruct ts; [congruence |].
      cbn [Vars.riskLevel Vars.score]; lia.
  - vm_compute; discriminate.
Qed.

(** A result is SAFE exactly when its score is 100, and then its only
    threat is the no-threat message; every other result has score at most
    80, and a DANGEROUS one at most 65. *)
Theorem verdict_and_score {P : Platform} (rnd : Random) (u : str) :
  (riskLevel (analyzeUrl rnd u) = safe <-> score (analyzeUrl rnd u) = 100)
  /\ (riskLevel (analyzeUrl rnd u) = safe ->
      threats (analyzeUrl rnd u) = [`"✅ No obvious threats detected"]
      /\ warnings (analyzeUrl rnd u)
         = [`"This URL appears to be safe, but always exercise caution when clicking links."])
  /\ (riskLevel (analyzeUrl rnd u) <> safe -> score (analyzeUrl rnd u) <= 80)
  /\ (riskLevel (analyzeUrl rnd u) = dangerous -> score (analyzeUrl rnd u) <= 65).
Proof.
  unfold analyzeUrl; cbn [riskLevel score threats warnings].
  pose proof (finalVars_coherent u) as H.
  destruct (Vars.riskLevel (finalVars u)).
  - destruct H as [Hs [Ht Hw]].
    split; [split; [intros _; exact Hs | reflexivity] |].
    split; [intros _; split; assumption |].
    split; [congruence | discriminate].
  - split; [split; [discriminate | intros E; lia] |].
    split; [discriminate |].
    split; [intros _; exact H | discriminate].
  - split; [split; [discriminate | intros E; lia] |].
    split; [discriminate |].
    split; [intros _; lia | intros _; exact H].
Qed.

Ltac decide_label :=
  repeat match goal with
         | |- context [?a <? ?b] =>
           destruct (Z.ltb_spec a b); try lia
         end;
  rewrite ?andb_false_r;
  vm_compute; first [reflexivity | discriminate].

(** The score-derived labels of the details never contradict the verdict:
    a SAFE result is labelled Excellent, Established, Trusted and Valid; no
    other result is labelled Excellent or Established; and a DANGEROUS
    result always has an Unknown/Suspicious registrar and Missing/Weak
    security headers. *)
Theorem labels_follow_verdict {P : Platform} (rnd : Random) (u : str) :
  let r := analyzeUrl rnd u in
  (riskLevel r = safe ->
   reputation (details r) = `"Excellent"
   /\ domainAge (details r) = `"Established (>1 year)"
   /\ registrar (details r) = `"Trusted"
   /\ dnsRecords (details r) = `"Valid")
  /\ (riskLevel r <> safe ->
      reputation (details r) <> `"Excellent"
      /\ domainAge (details r) <> `"Established (>1 year)")
  /\ (riskLevel r = dangerous ->
      registrar (details r) = `"Unknown/Suspicious"
      /\ securityHeaders (details r) = `"Missing/Weak").
Proof.
  cbv zeta; unfold analyzeUrl, mkDetailsOf.
  cbn [riskLevel details reputation domainAge registrar dnsRecords securityHeaders].
  pose proof (finalVars_coherent u) as H.
  destruct (Vars.riskLevel (finalVars u)).
  - destruct H as [Hs _]; rewrite Hs.
    split; [intros _ | split; [congruence | discriminate]].
    split; [| split; [| split]]; vm_compute; reflexivity.
  - split; [discriminate | split; [intros _ | discriminate]].
    split; decide_label.
  - split; [discriminate | split; intros _; split; decide_label].
Qed.

(** ** The level when the assigning rules stay silent, and when they fire *)

Lemma ruleRedirect_idle (fullUrl : str) (st : Vars.t) :
  existsb (fun pattern => Regex.test pattern fullUrl) Patterns.redirectPatterns = false ->
  ruleRedirect fullUrl st = st.
Proof.
  unfold ruleRedirect, forEach.
  generalize Patterns.redirectPatterns as l.
  induction l as [| p l IH]; cbn [existsb fold_left]; intros H; [reflexivity |].
  apply orb_false_iff in H; destruct H as [H1 H2].
  unfold when at 2; rewrite H1; apply IH, H2.
Qed.

Lemma ruleIp_idle (domain : str) (st : Vars.t) :
  Regex.test Patterns.ipLiteral domain = false -> ruleIp domain st = st.
Proof.
  intros H; unfold ruleIp, when; now rewrite H.
Qed.

Lemma rulePunycode_idle (domain : str) (st : Vars.t) :
  JS.includes `"xn--" domain = false -> rulePunycode domain st = st.
Proof.
  intros H; unfold rulePunycode, when; now rewrite H.
Qed.

Lemma overrides_false (fullUrl domain : str) :
  overrides fullUrl domain = false ->
  existsb (fun pattern => Regex.test pattern fullUrl) Patterns.redirectPatterns = false
  /\ Regex.test Patterns.ipLiteral domain = false
  /\ JS.includes `"xn--" domain = false.
Proof.
  unfold overrides; intros H.
  apply orb_false_iff in H; destruct H as [H H3].
  apply orb_false_iff in H; destruct H as [H1 H2].
  auto.
Qed.

Lemma battery_raises {P : Platform} (urlToAnalyze : str) (urlObj : URL) :
  overrides (toLowerCase urlToAnalyze) (toLowerCase (hostname urlObj)) = false ->
  Forall (fun rule => forall st, raises st (rule st))
         (battery urlToAnalyze urlObj).
Proof.
  intros H; apply overrides_false in H; destruct H as [H1 [H2 H3]].
  unfold battery; cbv zeta.
  repeat (apply Forall_cons; [| ]); [.. | apply Forall_nil].
  - unfold ruleMisspelling; climbs.
  - unfold ruleHomograph; climbs.
  - unfold ruleHttps; climbs.
  - unfold ruleSubdomain; climbs.
  - unfold ruleLength; climbs.
  - intros st; rewrite ruleRedirect_idle by exact H1; apply raises_refl.
  - unfold ruleNewDomain; climbs.
  - unfold ruleDownload; climbs.
  - unfold ruleBrand; climbs.
  - unfold ruleTld; climbs.
  - unfold ruleShortener; climbs.
  - unfold ruleKeywords; climbs.
  - intros st; rewrite ruleIp_idle by exact H2; apply raises_refl.
  - intros st; rewrite rulePunycode_idle by exact H3; apply raises_refl.
Qed.

Lemma trace_head (rules : list (Vars.t -> Vars.t)) (st : Vars.t) :
  exists rest, trace rules st = st :: rest.
Proof.
  destruct rules; simpl; eexists; reflexivity.
Qed.

Lemma trace_nonDecreasing (rules : list (Vars.t -> Vars.t)) :
  Forall (fun rule => forall st, raises st (rule st)) rules ->
  forall st, nonDecreasing (map Vars.riskLevel (trace rules st)) = true.
Proof.
  induction 1 as [| rule rules Hr _ IH]; intros st; [reflexivity |].
  cbn [trace].
  specialize (IH (rule st)).
  destruct (trace_head rules (rule st)) as [rest E]; rewrite E in *.
  cbn [map nonDecreasing] in *.
  rewrite IH, andb_true_r.
  apply Nat.leb_le, Hr.
Qed.

(** When the input matches no open-redirect pattern and its host is neither
    an IP literal nor punycode, the level never goes down while the battery
    runs. *)
Theorem level_monotone_without_overrides {P : Platform} (u : str) (urlObj : URL) :
  overrides (toLowerCase u) (toLowerCase (hostname urlObj)) = false ->
  nonDecreasing (levelTrace u urlObj) = true.
Proof.
  intros H; unfold levelTrace.
  apply trace_nonDecreasing, battery_raises, H.
Qed.

Lemma level_monotone_without_overrides_witness :
  let u := `"https://secure-paypal-login.tk/verify?confirm=1" in
  let urlObj := mkURL `"secure-paypal-login.tk" `"/verify" in
  overrides (Ref.lower u) (Ref.lower (hostname urlObj)) = false
  /\ nonDecreasing (@levelTrace Ref.platform u urlObj) = true.
Proof.
  assert (H : overrides
                (Ref.lower `"https://secure-paypal-login.tk/verify?confirm=1")
                (Ref.lower (hostname (mkURL `"secure-paypal-login.tk" `"/verify")))
              = false) by (vm_compute; reflexivity).
  split; [exact H |].
  exact (@level_monotone_without_overrides Ref.platform _ _ H).
Defined.

(** A host that begins with a dotted quad or contains "xn--" is classified
    SUSPICIOUS, whatever else fired: the IP-literal and punycode rules run
    last and assign the level outright. *)
Theorem ip_or_punycode_host_is_suspicious {P : Platform} (rnd : Random) (u : str)
        (urlObj : URL) :
  URL_parse u = Some urlObj ->
  Regex.test Patterns.ipLiteral (toLowerCase (hostname urlObj))
  || JS.includes `"xn--" (toLowerCase (hostname urlObj)) = true ->
  riskLevel (analyzeUrl rnd u) = suspicious.
Proof.
  intros Hparse H.
  unfold analyzeUrl; cbn [riskLevel]; unfold finalVars.
  rewrite Hparse, noThreats_riskLevel.
  unfold clamp; cbn [Vars.riskLevel].
  unfold battery, runRules; cbv zeta; cbn [fold_left].
  unfold rulePunycode at 1, ruleIp at 1, when, fire.
  destruct (JS.includes `"xn--" (toLowerCase (hostname urlObj)));
    [reflexivity |].
  rewrite orb_false_r in H; rewrite H; reflexivity.
Qed.

Lemma ip_or_punycode_host_is_suspicious_witness :
  let u := `"https://1.2.3.4/login/verify" in
  Ref.parse u = Some (mkURL `"1.2.3.4" `"/login/verify")
  /\ Regex.test Patterns.ipLiteral (Ref.lower `"1.2.3.4")
     || JS.includes `"xn--" (Ref.lower `"1.2.3.4") = true
  /\ riskLevel (@analyzeUrl Ref.platform Ref.rnd u) = suspicious.
Proof.
  assert (H1 : Ref.parse `"https://1.2.3.4/login/verify"
               = Some (mkURL `"1.2.3.4" `"/login/verify"))
    by (vm_compute; reflexivity).
  assert (H2 : Regex.test Patterns.ipLiteral (Ref.lower `"1.2.3.4")
               || JS.includes `"xn--" (Ref.lower `"1.2.3.4") = true)
    by (vm_compute; reflexivity).
  split; [exact H1 | split; [exact H2 |]].
  exact (@ip_or_punycode_host_is_suspicious Ref.platform Ref.rnd _ _ H1 H2).
Defined.

Lemma ruleBrand_raises domain st : raises st (ruleBrand domain st).
Proof. revert st; unfold ruleBrand; climbs. Qed.

Lemma ruleTld_raises domain st : raises st (ruleTld domain st).
Proof. revert st; unfold ruleTld; climbs. Qed.

Lemma ruleShortener_raises domain st : raises st (ruleShortener domain st).
Proof. revert st; unfold ruleShortener; climbs. Qed.

Lemma ruleKeywords_raises {P : Platform} domain urlObj st :
  raises st (ruleKeywords domain urlObj st).
Proof. revert st; unfold ruleKeywords; climbs. Qed.

Lemma stays_dangerous (st st' : Vars.t) :
  raises st st' -> Vars.riskLevel st = dangerous -> Vars.riskLevel st' = dangerous.
Proof.
  unfold raises, level_le; intros H E; rewrite E in H.
  destruct (Vars.riskLevel st'); simpl in H; [lia | lia | reflexivity].
Qed.

Lemma ruleDownload_fires (fullUrl : str) (st : Vars.t) :
  existsb (fun pattern => Regex.test pattern fullUrl) Patterns.downloadPatterns = true ->
  Vars.riskLevel (ruleDownload fullUrl st) = dangerous.
Proof.
  unfold ruleDownload, forEach.
  generalize Patterns.downloadPatterns as l; intros l; revert st.
  induction l as [| p l IH]; cbn [existsb fold_left]; intros st H; [discriminate |].
  apply orb_true_iff in H; destruct H as [E | H]; [| apply IH, H].
  unfold when at 2; rewrite E.
  match goal with
  | |- Vars.riskLevel (fold_left ?f l ?s) = _ =>
    apply (stays_dangerous s); [| reflexivity];
    change (raises s (forEach l (fun x acc => f acc x) s))
  end.
  generalize (fire `"📥 Potential file download detected"
                `"This URL may automatically download files to your computer, which could be dangerous."
                (assign dangerous) 60 st).
  climbs.
Qed.

Lemma ruleBrand_fires (domain : str) (st : Vars.t) :
  impersonationFires domain = true ->
  Vars.riskLevel (ruleBrand domain st) = dangerous.
Proof.
  unfold ruleBrand, impersonationFires, forEach.
  generalize brandPatterns as l; intros l; revert st.
  induction l as [| p l IH]; cbn [existsb fold_left]; intros st H; [discriminate |].
  apply orb_true_iff in H; destruct H as [E | H]; [| apply IH, H].
  apply andb_true_iff in E; destruct E as [E1 E2].
  unfold when at 2 3; rewrite E1, E2.
  match goal with
  | |- Vars.riskLevel (fold_left ?f l ?s) = _ =>
    apply (stays_dangerous s); [| reflexivity];
    change (raises s (forEach l (fun x acc => f acc x) s));
    generalize s
  end.
  climbs.
Qed.

Lemma ruleKeywords_fires {P : Platform} (domain : str) (urlObj : URL) (st : Vars.t) :
  (2 <=? List.length (foundKeywords domain urlObj))%nat = true ->
  Vars.riskLevel (ruleKeywords domain urlObj st) = dangerous.
Proof.
  intros H; unfold ruleKeywords, when; rewrite H; reflexivity.
Qed.

(** When the host is neither an IP literal nor punycode, a file-download
    pattern, a brand impersonation or two urgent keywords make the result
    DANGEROUS: no rule that runs after them lowers the level. *)
Theorem late_danger_is_dangerous {P : Platform} (rnd : Random) (u : str)
        (urlObj : URL) :
  URL_parse u = Some urlObj ->
  Regex.test Patterns.ipLiteral (toLowerCase (hostname urlObj)) = false ->
  JS.includes `"xn--" (toLowerCase (hostname urlObj)) = false ->
  lateDanger (toLowerCase u) (toLowerCase (hostname urlObj)) urlObj = true ->
  riskLevel (analyzeUrl rnd u) = dangerous.
Proof.
  intros Hparse Hip Hpuny H.
  unfold analyzeUrl; cbn [riskLevel]; unfold finalVars.
  rewrite Hparse, noThreats_riskLevel.
  unfold clamp; cbn [Vars.riskLevel].
  unfold battery, runRules; cbv zeta; cbn [fold_left].
  rewrite rulePunycode_idle by exact Hpuny.
  rewrite ruleIp_idle by exact Hip.
  unfold lateDanger in H.
  destruct (2 <=? List.length (foundKeywords (toLowerCase (hostname urlObj)) urlObj))%nat
    eqn:Ek; [now apply ruleKeywords_fires |].
  rewrite orb_false_r in H.
  eapply stays_dangerous; [apply ruleKeywords_raises |].
  eapply stays_dangerous; [apply ruleShortener_raises |].
  eapply stays_dangerous; [apply ruleTld_raises |].
  destruct (impersonationFires (toLowerCase (hostname urlObj))) eqn:Eb;
    [now apply ruleBrand_fires |].
  rewrite orb_false_r in H.
  eapply stays_dangerous; [apply ruleBrand_raises |].
  now apply ruleDownload_fires.
Qed.

Lemma late_danger_is_dangerous_witness :
  let u := `"https://secure-paypal-login.tk/verify?confirm=1" in
  let urlObj := mkURL `"secure-paypal-login.tk" `"/verify" in
  Ref.parse u = Some urlObj
  /\ riskLevel (@analyzeUrl Ref.platform Ref.rnd u) = dangerous.
Proof.
  assert (H1 : Ref.parse `"https://secure-paypal-login.tk/verify?confirm=1"
               = Some (mkURL `"secure-paypal-login.tk" `"/verify"))
    by (vm_compute; reflexivity).
  split; [exact H1 |].
  apply (@late_danger_is_dangerous Ref.platform Ref.rnd _ _ H1);
    vm_compute; reflexivity.
Defined.

(** ** Findings that are certain to be reported *)

Lemma extends_keeps_hit (threat : str) (penalty : Z) (a b c : Vars.t) :
  hits threat penalty a b -> extends b c -> hits threat penalty a c.
Proof.
  intros [Hin Hs] [Hs' [fs [Ht _]]]; split; [| lia].
  rewrite Ht; apply in_or_app; now left.
Qed.

Lemma hit_after_extends (threat : str) (penalty : Z) (a b c : Vars.t) :
  extends a b -> hits threat penalty b c -> hits threat penalty a c.
Proof.
  intros [Hs _] [Hin Hs']; split; [exact Hin | lia].
Qed.

Lemma runRules_app (pre post : list (Vars.t -> Vars.t)) (st : Vars.t) :
  runRules (pre ++ post) st = runRules post (runRules pre st).
Proof.
  unfold runRules; apply fold_left_app.
Qed.

(** A rule of a sequence that hits, among rules that only append and lower
    the score, makes the whole sequence hit. *)
Lemma runRules_hits (threat : str) (penalty : Z)
      (pre post : list (Vars.t -> Vars.t)) (rule : Vars.t -> Vars.t) :
  Forall (fun r => forall st, extends st (r st)) pre ->
  Forall (fun r => forall st, extends st (r st)) post ->
  (forall st, hits threat penalty st (rule st)) ->
  forall st, hits threat penalty st (runRules (pre ++ rule :: post) st).
Proof.
  intros Hpre Hpost Hrule st.
  rewrite runRules_app.
  change (runRules (rule :: post) (runRules pre st))
    with (runRules post (rule (runRules pre st))).
  eapply extends_keeps_hit;
    [| apply (runRules_closed _ extends_refl extends_trans _ Hpost)].
  eapply hit_after_extends;
    [apply (runRules_closed _ extends_refl extends_trans _ Hpre) | apply Hrule].
Qed.

Lemma forEach_as_rules {A : Type} (l : list A) (body : A -> Vars.t -> Vars.t)
      (st : Vars.t) :
  forEach l body st = runRules (map body l) st.
Proof.
  unfold forEach, runRules; revert st.
  induction l as [| x l IH]; intros st; [reflexivity | apply IH].
Qed.

Lemma forEach_hits {A : Type} (threat : str) (penalty : Z) (l : list A)
      (body : A -> Vars.t -> Vars.t) (x : A) :
  In x l ->
  (forall y st, extends st (body y st)) ->
  (forall st, hits threat penalty st (body x st)) ->
  forall st, hits threat penalty st (forEach l body st).
Proof.
  intros Hin Hext Hx st.
  destruct (in_split x l Hin) as [l1 [l2 ->]].
  rewrite forEach_as_rules, map_app; cbn [map].
  apply runRules_hits; [| | exact Hx];
    apply Forall_forall; intros r Hr; apply in_map_iff in Hr;
    destruct Hr as [y [<- _]]; apply Hext.
Qed.

Lemma fire_hits (threat warning : str) (level : RiskLevel -> RiskLevel)
      (penalty : Z) (st : Vars.t) :
  hits threat penalty st (fire threat warning level penalty st).
Proof.
  split; cbn [fire Vars.threats Vars.score]; [| lia].
  apply in_or_app; right; now left.
Qed.

Lemma finalVars_hits {P : Platform} (threat : str) (penalty : Z) (u : str)
      (urlObj : URL) :
  URL_parse u = Some urlObj ->
  0 < penalty <= 100 ->
  hits threat penalty initial (runRules (battery u urlObj) initial) ->
  In threat (Vars.threats (finalVars u))
  /\ Vars.score (finalVars u) <= 100 - penalty
  /\ Vars.riskLevel (finalVars u) <> safe.
Proof.
  intros Hparse Hp [Hin Hs].
  pose proof (finalVars_coherent u) as C.
  unfold finalVars in *; rewrite Hparse in *.
  revert C Hin Hs.
  generalize (runRules (battery u urlObj) initial) as st.
  intros [ts ws level sc]; unfold noThreats, clamp.
  cbn [Vars.threats Vars.warnings Vars.score Vars.riskLevel initial].
  destruct ts as [| t ts]; [intros _ [] |].
  cbn [Vars.threats Vars.warnings Vars.score Vars.riskLevel].
  intros C Hin Hs.
  split; [exact Hin | split; [lia |]].
  intros ->; destruct C as [C _]; lia.
Qed.

Lemma fire_hits_as (f : Finding) (threat warning : str)
      (level : RiskLevel -> RiskLevel) (penalty : Z) (st : Vars.t) :
  threatOf f = threat ->
  hits (threatOf f) penalty st (fire threat warning level penalty st).
Proof.
  intros <-; apply fire_hits.
Qed.

Lemma battery_rule_hits {P : Platform} (threat : str) (penalty : Z) (u : str)
      (urlObj : URL) (n : nat) (rule : Vars.t -> Vars.t) :
  nth_error (battery u urlObj) n = Some rule ->
  (forall st, hits threat penalty st (rule st)) ->
  hits threat penalty initial (runRules (battery u urlObj) initial).
Proof.
  intros Hn Hrule.
  pose proof (battery_extends u urlObj) as B.
  destruct (nth_error_split _ _ Hn) as [pre [post [E _]]].
  rewrite E in *.
  apply Forall_app in B; destruct B as [Bpre Bpost].
  apply Forall_inv_tail in Bpost.
  now apply runRules_hits.
Qed.

Lemma startsWith_shorter (p q s : str) :
  JS.startsWith (p ++ q) s = true -> JS.startsWith p s = true.
Proof.
  revert s; induction p as [| x p IH]; intros s H; [reflexivity |].
  destruct s as [| y s]; cbn [app JS.startsWith] in *; [discriminate |].
  apply andb_true_iff in H; destruct H as [H1 H2].
  now rewrite H1, (IH s H2).
Qed.

Lemma includes_shorter (p q s : str) :
  JS.includes (p ++ q) s = true -> JS.includes p s = true.
Proof.
  induction s as [| y s IH]; cbn [JS.includes]; intros H.
  - apply orb_true_iff in H; destruct H as [H | H]; [| discriminate].
    now rewrite (startsWith_shorter _ _ _ H).
  - apply orb_true_iff in H; destruct H as [H | H].
    + now rewrite (startsWith_shorter _ _ _ H).
    + rewrite (IH H); apply orb_true_r.
Qed.

Lemma ruleMisspelling_hits (domain : str) (check : Misspelling) (m : str) :
  In check commonMisspellings -> In m (misspelled check) ->
  JS.includes m domain = true ->
  forall st, hits (threatOf (Misspelt m (correct check))) 70 st
                  (ruleMisspelling domain st).
Proof.
  intros Hc Hm Hin; unfold ruleMisspelling.
  apply (forEach_hits _ _ _ _ check Hc).
  - intros y.
    apply (forEach_closed _ extends_refl extends_trans); intros m' _.
    appends (Misspelt m' (correct y)).
  - apply (forEach_hits _ _ _ _ m Hm).
    + intros m'; appends (Misspelt m' (correct check)).
    + intros st; unfold when; rewrite Hin.
      apply (fire_hits_as (Misspelt m (correct check))); reflexivity.
Qed.

(** Every host that contains "google", "facebook" or "amazon", the brands'
    own domains included, is reported as a misspelling: "googl", "facebook"
    and "amazon" are dictionary entries.  Such a scan is never SAFE and its
    score is at most 30. *)
Theorem brand_name_hosts_hit_misspelling {P : Platform} (rnd : Random) (u : str)
        (urlObj : URL) (name m : str) :
  In (name, m) [ (`"google", `"googl"); (`"facebook", `"facebook");
                 (`"amazon", `"amazon") ] ->
  URL_parse u = Some urlObj ->
  JS.includes name (toLowerCase (hostname urlObj)) = true ->
  In (threatOf (Misspelt m name)) (threats (analyzeUrl rnd u))
  /\ score (analyzeUrl rnd u) <= 30
  /\ riskLevel (analyzeUrl rnd u) <> safe.
Proof.
  intros Hname Hparse Hin.
  unfold analyzeUrl; cbn [threats score riskLevel].
  apply (finalVars_hits _ 70 u urlObj Hparse); [lia |].
  apply (battery_rule_hits _ _ u urlObj 0
           (ruleMisspelling (toLowerCase (hostname urlObj)))); [reflexivity |].
  destruct Hname as [E | [E | [E | []]]]; inversion E; subst name m; clear E.
  - apply (ruleMisspelling_hits _
             (mkMisspelling `"google" [`"gooogle"; `"googel"; `"gogle"; `"googl"])).
    + left; reflexivity.
    + right; right; right; left; reflexivity.
    + assert (G : `"google" = `"googl" ++ `"e") by (vm_compute; reflexivity).
      rewrite G in Hin; exact (includes_shorter _ _ _ Hin).
  - apply (ruleMisspelling_hits _
             (mkMisspelling `"facebook" [`"faceb00k"; `"facebok"; `"facebook"])).
    + right; left; reflexivity.
    + right; right; left; reflexivity.
    + exact Hin.
  - apply (ruleMisspelling_hits _
             (mkMisspelling `"amazon" [`"amaz0n"; `"amazon"; `"amazone"; `"amazom"])).
    + right; right; right; left; reflexivity.
    + right; left; reflexivity.
    + exact Hin.
Qed.

Lemma brand_name_hosts_hit_misspelling_witness :
  let u := `"https://mail.google.com/" in
  Ref.parse u = Some (mkURL `"mail.google.com" `"/")
  /\ JS.includes `"google" (Ref.lower `"mail.google.com") = true
  /\ score (@analyzeUrl Ref.platform Ref.rnd u) <= 30.
Proof.
  assert (H1 : Ref.parse `"https://mail.google.com/"
               = Some (mkURL `"mail.google.com" `"/")) by (vm_compute; reflexivity).
  assert (H2 : JS.includes `"google" (Ref.lower `"mail.google.com") = true)
    by (vm_compute; reflexivity).
  split; [exact H1 | split; [exact H2 |]].
  exact (proj1 (proj2 (@brand_name_hosts_hit_misspelling Ref.platform Ref.rnd
                         _ _ `"google" `"googl" (or_introl eq_refl) H1 H2))).
Defined.

Lemma filter_twice {A : Type} (f : A -> bool) (a b c : list A) (x : A) :
  f x = true -> (2 <= List.length (filter f (a ++ x :: b ++ x :: c)))%nat.
Proof.
  intros H.
  rewrite filter_app, length_app; cbn [filter]; rewrite H; cbn [List.length].
  rewrite filter_app, length_app; cbn [filter]; rewrite H; cbn [List.length].
  lia.
Qed.

Lemma suspended_twice :
  phishingKeywords
  = firstn 8 phishingKeywords ++ `"suspended"
      :: firstn 15 (skipn 9 phishingKeywords) ++ `"suspended"
      :: skipn 25 phishingKeywords.
Proof.
  vm_compute; reflexivity.
Qed.

Lemma ruleKeywords_hits {P : Platform} (domain : str) (urlObj : URL) :
  (2 <= List.length (foundKeywords domain urlObj))%nat ->
  forall st, hits (threatOf (UrgentKeywords (foundKeywords domain urlObj))) 50 st
                  (ruleKeywords domain urlObj st).
Proof.
  intros H st; unfold ruleKeywords, when.
  apply Nat.leb_le in H; rewrite H.
  apply (fire_hits_as (UrgentKeywords (foundKeywords domain urlObj))); reflexivity.
Qed.

(** The keyword list names "suspended" twice, so a URL whose host or path
    contains that one word already counts two keywords: the keyword finding
    is reported, the scan is not SAFE and its score is at most 50. *)
Theorem suspended_counts_twice {P : Platform} (rnd : Random) (u : str)
        (urlObj : URL) :
  let domain := toLowerCase (hostname urlObj) in
  URL_parse u = Some urlObj ->
  JS.includes `"suspended" domain
  || JS.includes `"suspended" (toLowerCase (pathname urlObj)) = true ->
  (2 <= List.length (foundKeywords domain urlObj))%nat
  /\ In (threatOf (UrgentKeywords (foundKeywords domain urlObj)))
        (threats (analyzeUrl rnd u))
  /\ score (analyzeUrl rnd u) <= 50
  /\ riskLevel (analyzeUrl rnd u) <> safe.
Proof.
  intros domain Hparse Hin.
  assert (H2 : (2 <= List.length (foundKeywords domain urlObj))%nat).
  { unfold foundKeywords; rewrite suspended_twice.
    apply filter_twice, Hin. }
  split; [exact H2 |].
  unfold analyzeUrl; cbn [threats score riskLevel].
  apply (finalVars_hits _ 50 u urlObj Hparse); [lia |].
  apply (battery_rule_hits _ _ u urlObj 11 (ruleKeywords domain urlObj));
    [reflexivity |].
  now apply ruleKeywords_hits.
Qed.

Lemma suspended_counts_twice_witness :
  let u := `"https://suspended.example.org/" in
  let urlObj := mkURL `"suspended.example.org" `"/" in
  Ref.parse u = Some urlObj
  /\ threats (@analyzeUrl Ref.platform Ref.rnd u)
     = [`"🚨 Multiple urgent keywords detected: suspended, suspended"]
  /\ score (@analyzeUrl Ref.platform Ref.rnd u) <= 50.
Proof.
  assert (H1 : Ref.parse `"https://suspended.example.org/"
               = Some (mkURL `"suspended.example.org" `"/"))
    by (vm_compute; reflexivity).
  assert (H2 : JS.includes `"suspended" (Ref.lower `"suspended.example.org")
               || JS.includes `"suspended" (Ref.lower `"/") = true)
    by (vm_compute; reflexivity).
  split; [exact H1 | split; [vm_compute; reflexivity |]].
  exact (proj1 (proj2 (proj2 (@suspended_counts_twice Ref.platform Ref.rnd
                                _ _ H1 H2)))).
Defined.

Lemma scheme_exclusive (t : str) :
  JS.startsWith `"http://" t = true -> JS.startsWith `"https://" t = false.
Proof.
  assert (E : `"http://" = [104; 116; 116; 112; 58; 47; 47]%N)
    by (vm_compute; reflexivity).
  rewrite E, https_units.
  destruct t as [| a [| b [| c [| d [| e t]]]]]; cbn [JS.startsWith]; intros H;
    rewrite ?andb_false_r in H; try discriminate.
  destruct (N.eqb_spec 115 e) as [<- | _].
  - replace (58 =? 115)%N with false in H by reflexivity.
    cbn [andb] in H; rewrite ?andb_false_r in H; discriminate.
  - cbn [andb]; rewrite ?andb_false_r; reflexivity.
Qed.

Lemma ruleHttps_hits (u : str) :
  JS.startsWith `"https://" u = false ->
  forall st, hits (threatOf NoHttps) 30 st (ruleHttps u st).
Proof.
  intros H st; unfold ruleHttps, when; rewrite H; cbn [negb].
  apply (fire_hits_as NoHttps); reflexivity.
Qed.

(** A URL entered with the "http://" scheme is never SAFE: when it parses,
    the result carries the No-HTTPS finding and a score of at most 70. *)
Theorem plain_http_never_safe {P : Platform} (rnd : Random) (raw : str)
        (r : ScanResult) (urlObj : URL) :
  handleScan rnd raw = Some r ->
  JS.startsWith `"http://" (JS.trim raw) = true ->
  URL_parse (JS.trim raw) = Some urlObj ->
  In (threatOf NoHttps) (threats r)
  /\ score r <= 70
  /\ riskLevel r <> safe.
Proof.
  intros Hscan Hhttp Hparse.
  pose proof (scheme_exclusive _ Hhttp) as Hs.
  unfold handleScan in Hscan.
  destruct (JS.trim raw) as [| c t] eqn:T; [discriminate |].
  injection Hscan as <-.
  unfold normalize; rewrite T, Hhttp; cbn [negb andb].
  unfold analyzeUrl; cbn [threats score riskLevel].
  apply (finalVars_hits _ 30 _ urlObj Hparse); [lia |].
  apply (battery_rule_hits _ _ _ urlObj 2 (ruleHttps (c :: t))); [reflexivity |].
  now apply ruleHttps_hits.
Qed.

Lemma plain_http_never_safe_witness :
  let raw := `"  http://example.org/about " in
  JS.startsWith `"http://" (JS.trim raw) = true
  /\ Ref.parse (JS.trim raw) = Some (mkURL `"example.org" `"/about")
  /\ score (@analyzeUrl Ref.platform Ref.rnd `"http://example.org/about") <= 70.
Proof.
  assert (H0 : @handleScan Ref.platform Ref.rnd `"  http://example.org/about "
               = Some (@analyzeUrl Ref.platform Ref.rnd `"http://example.org/about"))
    by (vm_compute; reflexivity).
  assert (H1 : JS.startsWith `"http://" (JS.trim `"  http://example.org/about ") = true)
    by (vm_compute; reflexivity).
  assert (H2 : Ref.parse (JS.trim `"  http://example.org/about ")
               = Some (mkURL `"example.org" `"/about"))
    by (vm_compute; reflexivity).
  pose proof (@plain_http_never_safe Ref.platform Ref.rnd _ _ _ H0 H1 H2) as R.
  split; [exact H1 | split; [exact H2 | exact (proj1 (proj2 R))]].
Defined.

(** ** Dictionary entries that cannot match *)

Lemma startsWith_units (p s : str) :
  JS.startsWith p s = true -> forall c, In c p -> In c s.
Proof.
  revert s; induction p as [| x p IH]; intros s H c Hc; [destruct Hc |].
  destruct s as [| y s]; cbn [JS.startsWith] in H; [discriminate |].
  apply andb_true_iff in H; destruct H as [H1 H2].
  apply N.eqb_eq in H1; subst y.
  destruct Hc as [<- | Hc]; [now left | right; exact (IH s H2 c Hc)].
Qed.

Lemma includes_units (p s : str) :
  JS.includes p s = true -> forall c, In c p -> In c s.
Proof.
  induction s as [| y s IH]; cbn [JS.includes]; intros H c Hc.
  - apply orb_true_iff in H; destruct H as [H | H]; [| discriminate].
    exact (startsWith_units _ _ H c Hc).
  - apply orb_true_iff in H; destruct H as [H | H].
    + exact (startsWith_units _ _ H c Hc).
    + right; exact (IH H c Hc).
Qed.

Lemma capital_I_entry_idle (m domain : str) :
  In 73%N m -> ~ In 73%N domain -> JS.includes m domain = false.
Proof.
  intros Hm Hd.
  destruct (JS.includes m domain) eqn:E; [| reflexivity].
  exfalso; exact (Hd (includes_units _ _ E _ Hm)).
Qed.

Lemma when_false (f : Vars.t -> Vars.t) (st : Vars.t) : when false f st = st.
Proof.
  reflexivity.
Qed.

(** The host is lower-cased before it is matched, so the four dictionary
    entries written with a capital I ("paypaI", "paypaII", "appIe",
    "netfIix") never match: on a host without a capital I the misspelling
    rule does exactly what it does with those entries removed. *)
Theorem capital_I_entries_never_match (domain : str) (st : Vars.t) :
  ~ In 73%N domain ->
  ruleMisspelling domain st = ruleMisspellingOver lowerCaseMisspellings domain st.
Proof.
  intros H.
  assert (E1 : JS.includes `"paypaI" domain = false)
    by (apply capital_I_entry_idle; [vm_compute; tauto | exact H]).
  assert (E2 : JS.includes `"paypaII" domain = false)
    by (apply capital_I_entry_idle; [vm_compute; tauto | exact H]).
  assert (E3 : JS.includes `"appIe" domain = false)
    by (apply capital_I_entry_idle; [vm_compute; tauto | exact H]).
  assert (E4 : JS.includes `"netfIix" domain = false)
    by (apply capital_I_entry_idle; [vm_compute; tauto | exact H]).
  unfold ruleMisspelling, ruleMisspellingOver, forEach,
    commonMisspellings, lowerCaseMisspellings.
  cbn [fold_left misspelled correct].
  rewrite E1, E2, E3, E4, !when_false; reflexivity.
Qed.

Lemma capital_I_entries_never_match_witness :
  ~ In 73%N `"paypai.com"
  /\ ruleMisspelling `"paypai.com" initial
     = ruleMisspellingOver lowerCaseMisspellings `"paypai.com" initial.
Proof.
  assert (H : ~ In 73%N `"paypai.com") by (vm_compute; intuition discriminate).
  split; [exact H |].
  exact (capital_I_entries_never_match `"paypai.com" initial H).
Defined.

(** ** Loops that stop at the first match *)

Lemma forFirst_at_most_once {A : Type} (l : list A) (c : A -> bool)
      (body : A -> Vars.t -> Vars.t) (st : Vars.t) :
  forFirst l c body st = st
  \/ exists x, In x l /\ c x = true /\ forFirst l c body st = body x st.
Proof.
  induction l as [| x l IH]; cbn [forFirst]; [now left |].
  destruct (c x) eqn:E.
  - right; exists x; split; [now left | split; [exact E | reflexivity]].
  - destruct IH as [IH | [y [Hy [Hc IH]]]]; [now left |].
    right; exists y; split; [now right | split; assumption].
Qed.

(** The suspicious-TLD rule and the shortener rule report at most one
    finding each and charge their penalty (25 and 20) at most once, however
    many entries of their lists match the host. *)
Theorem first_match_only (domain : str) (st : Vars.t) :
  (Vars.score st - 25 <= Vars.score (ruleTld domain st)
   /\ (List.length (Vars.threats (ruleTld domain st))
       <= S (List.length (Vars.threats st)))%nat)
  /\ (Vars.score st - 20 <= Vars.score (ruleShortener domain st)
      /\ (List.length (Vars.threats (ruleShortener domain st))
          <= S (List.length (Vars.threats st)))%nat).
Proof.
  split.
  - unfold ruleTld.
    destruct (forFirst_at_most_once suspiciousTlds
                (fun tld => JS.endsWith tld domain)
                (fun tld =>
                   fire (`"🧪 High-risk domain extension: " ++ tld)
                        (`"This website uses a domain extension (" ++ tld
                           ++ `") that's commonly associated with spam and malicious sites.")
                        escalate 25) st) as [E | [x [_ [_ E]]]]; rewrite E.
    + split; lia.
    + unfold fire; cbn [Vars.score Vars.threats]; rewrite length_app.
      cbn [List.length]; split; lia.
  - unfold ruleShortener.
    destruct (forFirst_at_most_once urlShorteners
                (fun shortener => JS.includes shortener domain)
                (fun _ =>
                   fire `"🔗 URL shortener detected - destination hidden"
                        `"This is a shortened URL that hides the real destination. Be cautious as you can't see where it actually leads."
                        escalate 20) st) as [E | [x [_ [_ E]]]]; rewrite E.
    + split; lia.
    + unfold fire; cbn [Vars.score Vars.threats]; rewrite length_app.
      cbn [List.length]; split; lia.
Qed.

(** ** The entry point: what is analysed *)

Lemma trimStart_idem (s : str) : JS.trimStart (JS.trimStart s) = JS.trimStart s.
Proof.
  induction s as [| x s IH]; [reflexivity |].
  cbn [JS.trimStart]; destruct (JS.isWhiteSpace x) eqn:E; [exact IH |].
  cbn [JS.trimStart]; now rewrite E.
Qed.

Lemma trimEnd_idem (s : str) : JS.trimEnd (JS.trimEnd s) = JS.trimEnd s.
Proof.
  unfold JS.trimEnd; now rewrite rev_involutive, trimStart_idem.
Qed.

Lemma trimStart_head (s : str) :
  JS.trimStart s = []
  \/ exists c r, JS.trimStart s = c :: r /\ JS.isWhiteSpace c = false.
Proof.
  induction s as [| x s IH]; [now left |].
  cbn [JS.trimStart]; destruct (JS.isWhiteSpace x) eqn:E; [exact IH |].
  right; exists x, s; split; [reflexivity | exact E].
Qed.

(** A trimmed string is empty or begins with a character that is not white
    space, and trimming it again changes nothing. *)
Lemma trim_shape (s : str) :
  JS.trim s = []
  \/ exists c r, JS.trim s = c :: r /\ JS.isWhiteSpace c = false
                 /\ JS.trimEnd (c :: r) = c :: r.
Proof.
  unfold JS.trim.
  destruct (trimStart_head s) as [E | [c [r [E Hc]]]]; rewrite E.
  - now left.
  - right; exists c, (JS.trimEnd r).
    rewrite (trimEnd_nonws c r Hc).
    split; [reflexivity | split; [exact Hc |]].
    rewrite (trimEnd_nonws c _ Hc), trimEnd_idem; reflexivity.
Qed.

Lemma trim_fixed (c : N) (r : str) :
  JS.isWhiteSpace c = false -> JS.trimEnd (c :: r) = c :: r ->
  JS.trim (c :: r) = c :: r.
Proof.
  intros Hc He; unfold JS.trim; now rewrite trimStart_nonws.
Qed.

Lemma trim_idem (s : str) : JS.trim (JS.trim s) = JS.trim s.
Proof.
  destruct (trim_shape s) as [E | [c [r [E [Hc He]]]]]; rewrite E.
  - reflexivity.
  - now apply trim_fixed.
Qed.

Lemma normalize_fixed (raw : str) :
  JS.trim raw <> [] ->
  JS.trim (normalize raw) = normalize raw
  /\ normalize (normalize raw) = normalize raw
  /\ normalize raw <> []
  /\ (JS.startsWith `"http://" (normalize raw)
      || JS.startsWith `"https://" (normalize raw) = true).
Proof.
  intros Hne.
  destruct (trim_shape raw) as [E | [c [r [E [Hc He]]]]]; [contradiction |].
  assert (T : JS.trim (`"https://" ++ c :: r) = `"https://" ++ c :: r).
  { unfold JS.trim.
    replace (JS.trimStart (`"https://" ++ c :: r)) with (`"https://" ++ c :: r)
      by (rewrite https_units; reflexivity).
    rewrite trimEnd_app; [now rewrite He |].
    rewrite He; discriminate. }
  assert (N : normalize raw
               = if negb (JS.startsWith `"http://" (c :: r))
                    && negb (JS.startsWith `"https://" (c :: r))
                 then `"https://" ++ c :: r else c :: r)
    by (unfold normalize; rewrite E; reflexivity).
  rewrite N; clear N.
  destruct (JS.startsWith `"http://" (c :: r)) eqn:H1;
    [| destruct (JS.startsWith `"https://" (c :: r)) eqn:H2]; cbn [negb andb].
  - split; [now apply trim_fixed |].
    split; [unfold normalize; rewrite (trim_fixed c r Hc He), H1; reflexivity |].
    split; [discriminate | now rewrite H1].
  - split; [now apply trim_fixed |].
    split; [unfold normalize; rewrite (trim_fixed c r Hc He), H1, H2; reflexivity |].
    split; [discriminate | now rewrite H1, H2].
  - split; [exact T |].
    split; [unfold normalize; rewrite T, startsWith_app, andb_false_r; reflexivity |].
    split; [rewrite https_units; discriminate |].
    now rewrite startsWith_app, orb_true_r.
Qed.

Lemma handleScan_some {P : Platform} (rnd : Random) (raw : str) (r : ScanResult) :
  handleScan rnd raw = Some r ->
  JS.trim raw <> [] /\ r = analyzeUrl rnd (normalize raw).
Proof.
  unfold handleScan; destruct (JS.trim raw); [discriminate |].
  intros H; injection H as <-; split; [discriminate | reflexivity].
Qed.

(** Scanning the URL a result displays gives that result again: the URL
    that was analysed is already trimmed and carries a scheme, so the entry
    point passes it on unchanged. *)
Theorem rescan_is_stable {P : Platform} (rnd : Random) (raw : str) (r : ScanResult) :
  handleScan rnd raw = Some r -> handleScan rnd (url r) = Some r.
Proof.
  intros H; destruct (handleScan_some rnd raw r H) as [Hne ->].
  destruct (normalize_fixed raw Hne) as [T [N [Hn _]]].
  unfold analyzeUrl at 1; cbn [url].
  unfold handleScan; rewrite T, N.
  destruct (normalize raw); [contradiction | reflexivity].
Qed.

Lemma rescan_is_stable_witness :
  @handleScan Ref.platform Ref.rnd `"  example.org/about "
  = Some (@analyzeUrl Ref.platform Ref.rnd `"https://example.org/about")
  /\ @handleScan Ref.platform Ref.rnd
       (url (@analyzeUrl Ref.platform Ref.rnd `"https://example.org/about"))
     = Some (@analyzeUrl Ref.platform Ref.rnd `"https://example.org/about").
Proof.
  assert (H : @handleScan Ref.platform Ref.rnd `"  example.org/about "
              = Some (@analyzeUrl Ref.platform Ref.rnd `"https://example.org/about"))
    by (vm_compute; reflexivity).
  split; [exact H |].
  exact (@rescan_is_stable Ref.platform Ref.rnd _ _ H).
Defined.

(** Every URL that is analysed starts with "http://" or "https://", and the
    ssl flag of the result is decided by the text of the input alone: it is
    false exactly when the trimmed input itself starts with "http://".  An
    input entered without a scheme is always reported with ssl = true. *)
Theorem ssl_flag_from_input {P : Platform} (rnd : Random) (raw : str) (r : ScanResult) :
  handleScan rnd raw = Some r ->
  JS.startsWith `"http://" (url r) || JS.startsWith `"https://" (url r) = true
  /\ ssl (details r) = negb (JS.startsWith `"http://" (JS.trim raw)).
Proof.
  intros H; destruct (handleScan_some rnd raw r H) as [Hne ->].
  destruct (normalize_fixed raw Hne) as [_ [_ [_ Hs]]].
  unfold analyzeUrl, mkDetailsOf; cbn [url details ssl].
  split; [exact Hs |].
  unfold normalize.
  destruct (JS.startsWith `"http://" (JS.trim raw)) eqn:H1; cbn [negb andb].
  - exact (scheme_exclusive _ H1).
  - destruct (JS.startsWith `"https://" (JS.trim raw)) eqn:H2; cbn [negb];
      [exact H2 | apply startsWith_app].
Qed.

Lemma ssl_flag_from_input_witness :
  @handleScan Ref.platform Ref.rnd `"example.com"
  = Some (@analyzeUrl Ref.platform Ref.rnd `"https://example.com")
  /\ ssl (details (@analyzeUrl Ref.platform Ref.rnd `"https://example.com")) = true.
Proof.
  assert (H : @handleScan Ref.platform Ref.rnd `"example.com"
              = Some (@analyzeUrl Ref.platform Ref.rnd `"https://example.com"))
    by (vm_compute; reflexivity).
  split; [exact H |].
  exact (proj2 (@ssl_flag_from_input Ref.platform Ref.rnd _ _ H)).
Defined.

(* ================================================================== *)
(** * The second variant *)

(** The variables after the nine rules, as a function of which conditions
    hold. *)
Lemma draft_rules_spec (domain : str) :
  let st := Draft.runRules (Draft.rules domain) Draft.initial in
  Draft.Vars.riskLevel st
  = (if Draft.anyDangerous domain then dangerous
     else if Draft.anySuspicious domain then suspicious else safe)
  /\ Draft.Vars.score st = 100 - Draft.penalties domain
  /\ match Draft.Vars.threats st with [] => true | _ :: _ => false end
     = negb (Draft.anyDangerous domain || Draft.anySuspicious domain)
  /\ existsb (fun t => JS.includes `"typosquatting" t) (Draft.Vars.threats st)
     = Draft.anyBrand domain.
Proof.
  unfold Draft.rules, Draft.anyDangerous, Draft.anySuspicious, Draft.anyBrand,
    Draft.penalties; cbv zeta.
  destruct (Draft.paypalCond domain), (Draft.amazonCond domain),
    (Draft.microsoftCond domain), (Draft.googleCond domain),
    (Draft.tldCond domain), (Draft.shortenerCond domain),
    (Draft.subdomainCond domain), (Draft.hyphenCond domain),
    (Draft.nonLatinCond domain);
    vm_compute; (split; [| split; [| split]]); reflexivity.
Qed.

(** In the second variant the verdict is the highest severity among the
    rules that fire, whatever their order, and the score is 100 minus the
    penalties of those rules, floored at 0: no rule of this variant ever
    lowers the level. *)
Theorem draft_verdict_is_max_severity {P : Platform} (u : str) (urlObj : URL) :
  let domain := toLowerCase (hostname urlObj) in
  URL_parse u = Some urlObj ->
  Draft.riskLevel (Draft.analyzeUrl u)
  = (if Draft.anyDangerous domain then dangerous
     else if Draft.anySuspicious domain then suspicious else safe)
  /\ Draft.score (Draft.analyzeUrl u) = Z.max 0 (100 - Draft.penalties domain).
Proof.
  intros domain Hparse.
  destruct (draft_rules_spec domain) as [Hl [Hs _]].
  unfold Draft.analyzeUrl; cbn [Draft.riskLevel Draft.score].
  unfold Draft.finalVars; rewrite Hparse.
  fold domain.
  unfold Draft.noThreats, Draft.clamp; cbn [Draft.Vars.threats].
  destruct (Draft.Vars.threats (Draft.runRules (Draft.rules domain) Draft.initial));
    cbn [Draft.Vars.riskLevel Draft.Vars.score]; rewrite Hl, Hs; split; reflexivity.
Qed.

Lemma draft_verdict_is_max_severity_witness :
  let u := `"https://secure-paypal-login.tk/verify" in
  Ref.parse u = Some (mkURL `"secure-paypal-login.tk" `"/verify")
  /\ Draft.riskLevel (@Draft.analyzeUrl Ref.platform u) = dangerous
  /\ Draft.score (@Draft.analyzeUrl Ref.platform u) = 30.
Proof.
  assert (H : Ref.parse `"https://secure-paypal-login.tk/verify"
              = Some (mkURL `"secure-paypal-login.tk" `"/verify"))
    by (vm_compute; reflexivity).
  split; [exact H |].
  pose proof (@draft_verdict_is_max_severity Ref.platform _ _ H) as R.
  split; [exact (proj1 R) | exact (proj2 R)].
Defined.

(** In the second variant the typosquatting flag is true exactly when one
    of the four brand rules (PayPal, Amazon, Microsoft, Google) fired; it is
    false on the parse-failure path. *)
Theorem draft_flag_is_brand_rule {P : Platform} (u : str) :
  Draft.typosquatting (Draft.details (Draft.analyzeUrl u))
  = match URL_parse u with
    | Some urlObj => Draft.anyBrand (toLowerCase (hostname urlObj))
    | None => false
    end.
Proof.
  unfold Draft.analyzeUrl; cbn [Draft.details Draft.typosquatting].
  unfold Draft.finalVars.
  destruct (URL_parse u) as [urlObj |]; [| vm_compute; reflexivity].
  destruct (draft_rules_spec (toLowerCase (hostname urlObj))) as [_ [_ [He Hf]]].
  cbv zeta in He, Hf; rewrite <- Hf.
  unfold Draft.noThreats, Draft.clamp; cbn [Draft.Vars.threats].
  destruct (Draft.Vars.threats
              (Draft.runRules (Draft.rules (toLowerCase (hostname urlObj)))
                 Draft.initial));
    cbn [Draft.Vars.threats]; [vm_compute |]; reflexivity.
Qed.

Lemma draft_penalties_bounds (domain : str) :
  0 <= Draft.penalties domain
  /\ (Draft.anyDangerous domain = true -> 40 <= Draft.penalties domain)
  /\ (Draft.anySuspicious domain = true -> 10 <= Draft.penalties domain)
  /\ (Draft.anyDangerous domain || Draft.anySuspicious domain = false ->
      Draft.penalties domain = 0).
Proof.
  unfold Draft.anyDangerous, Draft.anySuspicious, Draft.penalties.
  destruct (Draft.paypalCond domain), (Draft.amazonCond domain),
    (Draft.microsoftCond domain), (Draft.googleCond domain),
    (Draft.tldCond domain), (Draft.shortenerCond domain),
    (Draft.subdomainCond domain), (Draft.hyphenCond domain),
    (Draft.nonLatinCond domain);
    cbn [orb]; (split; [lia | split; [| split]]); intros H;
    first [discriminate H | lia].
Qed.

(** In the second variant the score lies between 0 and 100, a result is
    SAFE exactly when its score is 100 (and then its only threat is the
    no-threat message), and a DANGEROUS result has score at most 60. *)
Theorem draft_verdict_and_score {P : Platform} (u : str) :
  0 <= Draft.score (Draft.analyzeUrl u) <= 100
  /\ (Draft.riskLevel (Draft.analyzeUrl u) = safe
      <-> Draft.score (Draft.analyzeUrl u) = 100)
  /\ (Draft.riskLevel (Draft.analyzeUrl u) = safe ->
      Draft.threats (Draft.analyzeUrl u) = [`"No obvious threats detected"])
  /\ (Draft.riskLevel (Draft.analyzeUrl u) = dangerous ->
      Draft.score (Draft.analyzeUrl u) <= 60).
Proof.
  unfold Draft.analyzeUrl; cbn [Draft.riskLevel Draft.score Draft.threats].
  unfold Draft.finalVars.
  destruct (URL_parse u) as [urlObj |].
  - destruct (draft_rules_spec (toLowerCase (hostname urlObj)))
      as [Hl [Hs [He _]]].
    destruct (draft_penalties_bounds (toLowerCase (hostname urlObj)))
      as [B0 [BD [BS BN]]].
    cbv zeta in Hl, Hs, He; revert Hl Hs He.
    generalize (Draft.runRules (Draft.rules (toLowerCase (hostname urlObj)))
                  Draft.initial) as st.
    intros [ts level sc]; unfold Draft.noThreats, Draft.clamp.
    cbn [Draft.Vars.threats Draft.Vars.riskLevel Draft.Vars.score].
    intros -> -> He.
    destruct (Draft.anyDangerous (toLowerCase (hostname urlObj))) eqn:ED;
      [| destruct (Draft.anySuspicious (toLowerCase (hostname urlObj))) eqn:ES];
      cbn [orb negb] in He; destruct ts as [| t ts]; try discriminate He;
      cbn [Draft.Vars.threats Draft.Vars.riskLevel Draft.Vars.score app].
    + specialize (BD eq_refl).
      split; [lia | split; [split; [discriminate | lia] |]].
      split; [discriminate | intros _; lia].
    + specialize (BS eq_refl).
      split; [lia | split; [split; [discriminate | lia] |]].
      split; discriminate.
    + specialize (BN eq_refl).
      split; [lia | split; [split; [intros _; lia | reflexivity] |]].
      split; [reflexivity | discriminate].
  - vm_compute; split; [split; discriminate |].
    split; [split; discriminate | split; discriminate].
Qed.

(* ================================================================== *)
(** * The preview component *)

(** ** The request URL *)

Lemma delimiter_not_unreserved (c : N) :
  Preview.delimiter c = true -> Preview.unreserved c = false.
Proof.
  unfold Preview.delimiter; cbn [existsb]; intros H.
  repeat (apply orb_true_iff in H; destruct H as [H | H];
          [apply N.eqb_eq in H; subst c; vm_compute; reflexivity |]).
  discriminate.
Qed.

Lemma hexDigit_no_delimiter (n : N) : Preview.delimiter (Preview.hexDigit n) = false.
Proof.
  unfold Preview.hexDigit, Preview.delimiter; cbn [existsb].
  destruct (N.ltb_spec n 10);
    repeat match goal with
           | |- context [N.eqb ?a ?b] => destruct (N.eqb_spec a b); [lia |]
           end; reflexivity.
Qed.

Lemma escape_no_delimiter (octets : list N) :
  Forall (fun c => Preview.delimiter c = false) (flat_map Preview.escape octets).
Proof.
  induction octets as [| o octets IH]; cbn [flat_map]; [constructor |].
  unfold Preview.escape; cbn [app].
  repeat constructor; try apply hexDigit_no_delimiter; exact IH.
Qed.

Lemma encode_no_delimiter_upto (n : nat) :
  forall s e, (List.length s <= n)%nat ->
              Preview.encodeURIComponent s = Some e ->
              Forall (fun c => Preview.delimiter c = false) e.
Proof.
  induction n as [| n IH]; intros s e Hlen He.
  - destruct s; [| simpl in Hlen; lia].
    injection He as <-; constructor.
  - destruct s as [| c s]; [injection He as <-; constructor |].
    cbn [Preview.encodeURIComponent] in He; simpl in Hlen.
    destruct (Preview.unreserved c) eqn:U.
    + destruct (Preview.encodeURIComponent s) as [e' |] eqn:E; [| discriminate].
      injection He as <-; constructor.
      * destruct (Preview.delimiter c) eqn:D; [| reflexivity].
        rewrite (delimiter_not_unreserved c D) in U; discriminate.
      * apply (IH s); [lia | exact E].
    + destruct (Preview.isLowSurrogate c); [discriminate |].
      destruct (Preview.isHighSurrogate c).
      * destruct s as [| k s]; [discriminate |].
        destruct (Preview.isLowSurrogate k); [| discriminate].
        destruct (Preview.encodeURIComponent s) as [e' |] eqn:E; [| discriminate].
        injection He as <-; apply Forall_app; split;
          [apply escape_no_delimiter | apply (IH s); [simpl in Hlen; lia | exact E]].
      * destruct (Preview.encodeURIComponent s) as [e' |] eqn:E; [| discriminate].
        injection He as <-; apply Forall_app; split;
          [apply escape_no_delimiter | apply (IH s); [lia | exact E]].
Qed.

Lemma count_app (p : N -> bool) (a b : str) :
  Preview.count p (a ++ b) = (Preview.count p a + Preview.count p b)%nat.
Proof.
  unfold Preview.count; now rewrite filter_app, length_app.
Qed.

Lemma count_none (c : N) (e : str) :
  Preview.delimiter c = true ->
  Forall (fun x => Preview.delimiter x = false) e ->
  Preview.count (N.eqb c) e = 0%nat.
Proof.
  intros Hc He; unfold Preview.count.
  induction He as [| x e Hx _ IH]; [reflexivity |].
  cbn [filter]; destruct (N.eqb_spec c x) as [-> | _]; [congruence | exact IH].
Qed.

Lemma template_counts (before after target shot : str) (c : N) :
  Preview.delimiter c = true ->
  Preview.template before after target = Some shot ->
  Preview.count (N.eqb c) shot = Preview.count (N.eqb c) (before ++ after).
Proof.
  unfold Preview.template; intros Hc H.
  destruct (Preview.encodeURIComponent target) as [e |] eqn:E; [| discriminate].
  injection H as <-.
  rewrite !count_app, (count_none c e Hc); [lia |].
  exact (encode_no_delimiter_upto _ _ _ (le_n _) E).
Qed.

(** Whatever the target is, it cannot add, remove or split a parameter of
    the screenshot request: the request URL of every service contains each
    of the delimiters & = ? # / : + and the space exactly as often as the
    service's fixed text does. *)
Theorem target_cannot_alter_request (service : Preview.Service) (target shot : str)
        (c : N) :
  In service Preview.screenshotServices ->
  Preview.delimiter c = true ->
  Preview.generateUrl service target = Some shot ->
  exists base,
    Preview.generateUrl service [] = Some base
    /\ Preview.count (N.eqb c) shot = Preview.count (N.eqb c) base.
Proof.
  intros Hin Hc H.
  destruct Hin as [<- | [<- | [<- | [<- | []]]]]; cbn [Preview.generateUrl] in *;
    (eexists; split; [reflexivity |]);
    rewrite app_nil_l; exact (template_counts _ _ _ _ _ Hc H).
Qed.

Lemma target_cannot_alter_request_witness :
  let service :=
    Preview.mkService `"Htmlcsstoimage"
      (Preview.template `"https://hcti.io/v1/image?url="
                        `"&viewport_width=1200&viewport_height=800") in
  let target := `"https://example.org/?a=1&viewport_width=1#x" in
  Preview.generateUrl service target
  = Some `"https://hcti.io/v1/image?url=https%3A%2F%2Fexample.org%2F%3Fa%3D1%26viewport_width%3D1%23x&viewport_width=1200&viewport_height=800"
  /\ exists base,
       Preview.generateUrl service [] = Some base
       /\ Preview.count (N.eqb 38) `"https://hcti.io/v1/image?url=https%3A%2F%2Fexample.org%2F%3Fa%3D1%26viewport_width%3D1%23x&viewport_width=1200&viewport_height=800"
          = Preview.count (N.eqb 38) base.
Proof.
  assert (H : Preview.generateUrl
                (Preview.mkService `"Htmlcsstoimage"
                   (Preview.template `"https://hcti.io/v1/image?url="
                      `"&viewport_width=1200&viewport_height=800"))
                `"https://example.org/?a=1&viewport_width=1#x"
              = Some `"https://hcti.io/v1/image?url=https%3A%2F%2Fexample.org%2F%3Fa%3D1%26viewport_width%3D1%23x&viewport_width=1200&viewport_height=800")
    by (vm_compute; reflexivity).
  split; [exact H |].
  apply (target_cannot_alter_request _ _ _ 38%N (or_intror (or_introl eq_refl))
           eq_refl H).
Defined.

(** ** The chain of attempts *)

(** Once the retry timers have fired, [generatePreview(0)] has settled as
    follows.  If some service's image loads, the preview is the request URL
    of the first such service in list order, that service is the current
    one and no error is set.  If none loads (or the encoder rejects the
    target), the error is "All preview services failed" and the preview
    URL and current service stay what they were.  In both cases the
    loading flag is off. *)
Theorem preview_chain_settles (loads : str -> bool) (url : str) (fuel : nat)
        (st : Preview.State) :
  url <> [] -> (3 <= fuel)%nat ->
  Preview.generatePreview loads url fuel 0 st
  = match Preview.firstLoading loads url with
    | Some i =>
      {| Preview.previewUrl := Preview.attempt loads url i;
         Preview.isLoading := false;
         Preview.error := None;
         Preview.currentService := i |}
    | None =>
      {| Preview.previewUrl := Preview.previewUrl st;
         Preview.isLoading := false;
         Preview.error := Some `"All preview services failed";
         Preview.currentService := Preview.currentService st |}
    end.
Proof.
  intros Hurl Hfuel.
  destruct url as [| c url]; [contradiction |].
  assert (L : List.length Preview.screenshotServices = 4%nat) by reflexivity.
  destruct fuel as [| [| [| fuel]]]; try lia.
  destruct fuel as [| fuel];
    unfold Preview.firstLoading;
    cbn [Preview.generatePreview]; rewrite !L;
    cbn [seq find Nat.ltb Nat.leb Nat.sub
         Preview.previewUrl Preview.currentService];
    (destruct (Preview.attempt loads (c :: url) 0) eqn:A0;
     [rewrite ?A0; reflexivity |]);
    (destruct (Preview.attempt loads (c :: url) 1) eqn:A1;
     [rewrite ?A1; reflexivity |]);
    (destruct (Preview.attempt loads (c :: url) 2) eqn:A2;
     [rewrite ?A2; reflexivity |]);
    destruct (Preview.attempt loads (c :: url) 3) eqn:A3;
    rewrite ?A3; reflexivity.
Qed.

Lemma preview_chain_settles_witness :
  let loads := fun shot : str => JS.startsWith `"https://api.url2png.com" shot in
  `"example.org" <> []
  /\ (3 <= 3)%nat
  /\ Preview.generatePreview loads `"example.org" 3 0
       (Preview.mkState None false None 0)
     = {| Preview.previewUrl :=
            Some `"https://api.url2png.com/v6/demo/demo/png/?url=https%3A%2F%2Fexample.org&viewport=1200x800&thumbnail_max_width=600";
          Preview.isLoading := false;
          Preview.error := None;
          Preview.currentService := 2 |}.
Proof.
  assert (H1 : `"example.org" <> []) by (vm_compute; discriminate).
  assert (H2 : (3 <= 3)%nat) by lia.
  split; [exact H1 | split; [exact H2 |]].
  rewrite (preview_chain_settles _ _ _ _ H1 H2).
  vm_compute; reflexivity.
Defined.

(* ================================================================== *)
(** * The findings of a scan, exactly *)

Lemma emits_nil (st : Vars.t) : emits [] st st.
Proof.
  unfold emits; cbn [map totalPenalty fold_right]; rewrite !app_nil_r.
  repeat split; lia.
Qed.

Lemma emits_app (a b : list Finding) (st st' st'' : Vars.t) :
  emits a st st' -> emits b st' st'' -> emits (a ++ b) st st''.
Proof.
  intros [Ht1 [Hw1 Hs1]] [Ht2 [Hw2 Hs2]]; unfold emits.
  rewrite Ht2, Hw2, Ht1, Hw1, !map_app, !app_assoc, totalPenalty_app.
  split; [reflexivity | split; [reflexivity | lia]].
Qed.

Lemma fire_emits (f : Finding) (threat warning : str)
      (level : RiskLevel -> RiskLevel) (penalty : Z) (st : Vars.t) :
  threatOf f = threat -> warningOf f = warning -> penaltyOf f = penalty ->
  emits [f] st (fire threat warning level penalty st).
Proof.
  intros <- <- <-; unfold emits, fire.
  cbn [Vars.threats Vars.warnings Vars.score map totalPenalty fold_right].
  split; [reflexivity | split; [reflexivity | lia]].
Qed.

Lemma when_emits (c : bool) (fs : list Finding) (f : Vars.t -> Vars.t) :
  (forall st, emits fs st (f st)) ->
  forall st, emits (if c then fs else []) st (when c f st).
Proof.
  intros H st; unfold when; destruct c; [apply H | apply emits_nil].
Qed.

Lemma forEach_emits {A : Type} (l : list A) (body : A -> Vars.t -> Vars.t)
      (g : A -> list Finding) :
  (forall x, In x l -> forall st, emits (g x) st (body x st)) ->
  forall st, emits (flat_map g l) st (forEach l body st).
Proof.
  unfold forEach.
  induction l as [| x l IH]; intros H st; cbn [flat_map fold_left].
  - apply emits_nil.
  - eapply emits_app.
    + apply (H x); now left.
    + apply IH; intros y Hy; apply H; now right.
Qed.

Lemma forFirst_emits {A : Type} (l : list A) (c : A -> bool)
      (body : A -> Vars.t -> Vars.t) (g : A -> list Finding) :
  (forall x, In x l -> forall st, emits (g x) st (body x st)) ->
  forall st, emits (match find c l with Some x => g x | None => [] end) st
                   (forFirst l c body st).
Proof.
  induction l as [| x l IH]; intros H st; cbn [find forFirst].
  - apply emits_nil.
  - destruct (c x).
    + apply H; now left.
    + apply IH; intros y Hy; apply H; now right.
Qed.

Ltac emit f := intros; cbv beta; apply (fire_emits f); reflexivity.

Lemma ruleMisspelling_emits (domain : str) (st : Vars.t) :
  emits (flat_map (fun check =>
                     flat_map (fun m => if JS.includes m domain
                                        then [Misspelt m (correct check)] else [])
                              (misspelled check))
                  commonMisspellings)
        st (ruleMisspelling domain st).
Proof.
  revert st; unfold ruleMisspelling.
  apply forEach_emits; intros check _; cbv beta.
  apply forEach_emits; intros m _; cbv beta.
  apply when_emits; emit (Misspelt m (correct check)).
Qed.

Lemma ruleHomograph_emits (domain : str) (st : Vars.t) :
  emits (flat_map (fun pattern => if Regex.test pattern domain then [Homograph] else [])
                  Patterns.homographPatterns)
        st (ruleHomograph domain st).
Proof.
  revert st; unfold ruleHomograph.
  apply forEach_emits; intros pattern _; cbv beta.
  apply when_emits; emit Homograph.
Qed.

Lemma ruleHttps_emits (u : str) (st : Vars.t) :
  emits (if negb (JS.startsWith `"https://" u) then [NoHttps] else [])
        st (ruleHttps u st).
Proof.
  revert st; unfold ruleHttps; apply when_emits; emit NoHttps.
Qed.

Lemma ruleSubdomain_emits (domain : str) (st : Vars.t) :
  emits (flat_map (fun pattern => if Regex.test pattern domain then [FakeSubdomain] else [])
                  Patterns.suspiciousSubdomainPatterns)
        st (ruleSubdomain domain st).
Proof.
  revert st; unfold ruleSubdomain.
  apply forEach_emits; intros pattern _; cbv beta.
  apply when_emits; emit FakeSubdomain.
Qed.

Lemma ruleLength_emits (fullUrl : str) (st : Vars.t) :
  emits (if (100 <? List.length fullUrl)%nat
         then if (2 <? Regex.matchCount Patterns.hexRun fullUrl)%nat
                 || (200 <? List.length fullUrl)%nat
              then [LongUrl (List.length fullUrl)] else []
         else [])
        st (ruleLength fullUrl st).
Proof.
  revert st; unfold ruleLength; apply when_emits; cbv zeta.
  apply when_emits; emit (LongUrl (List.length fullUrl)).
Qed.

Lemma ruleRedirect_emits (fullUrl : str) (st : Vars.t) :
  emits (flat_map (fun pattern => if Regex.test pattern fullUrl then [OpenRedirect] else [])
                  Patterns.redirectPatterns)
        st (ruleRedirect fullUrl st).
Proof.
  revert st; unfold ruleRedirect.
  apply forEach_emits; intros pattern _; cbv beta.
  apply when_emits; emit OpenRedirect.
Qed.

Lemma ruleNewDomain_emits (domain : str) (st : Vars.t) :
  emits (flat_map (fun pattern => if Regex.test pattern domain then [NewDomain] else [])
                  Patterns.newDomainIndicators)
        st (ruleNewDomain domain st).
Proof.
  revert st; unfold ruleNewDomain.
  apply forEach_emits; intros pattern _; cbv beta.
  apply when_emits; emit NewDomain.
Qed.

Lemma ruleDownload_emits (fullUrl : str) (st : Vars.t) :
  emits (flat_map (fun pattern => if Regex.test pattern fullUrl then [FileDownload] else [])
                  Patterns.downloadPatterns)
        st (ruleDownload fullUrl st).
Proof.
  revert st; unfold ruleDownload.
  apply forEach_emits; intros pattern _; cbv beta.
  apply when_emits; emit FileDownload.
Qed.

Lemma ruleBrand_emits (domain : str) (st : Vars.t) :
  emits (flat_map (fun pattern =>
                     if JS.includes (brand pattern) domain
                     then if negb (isLegitimate domain pattern)
                          then [Impersonation (brand pattern)] else []
                     else [])
                  brandPatterns)
        st (ruleBrand domain st).
Proof.
  revert st; unfold ruleBrand.
  apply forEach_emits; intros pattern Hin; cbv beta.
  apply when_emits; apply when_emits; intros st.
  apply (fire_emits (Impersonation (brand pattern)));
    [reflexivity | reflexivity | now apply brand_penalty].
Qed.

Lemma ruleTld_emits (domain : str) (st : Vars.t) :
  emits match find (fun tld => JS.endsWith tld domain) suspiciousTlds with
        | Some tld => [RiskyTld tld]
        | None => []
        end
        st (ruleTld domain st).
Proof.
  revert st; unfold ruleTld.
  apply (forFirst_emits _ _ _ (fun tld => [RiskyTld tld])); intros tld _.
  emit (RiskyTld tld).
Qed.

Lemma ruleShortener_emits (domain : str) (st : Vars.t) :
  emits match find (fun shortener => JS.includes shortener domain) urlShorteners with
        | Some _ => [Shortener]
        | None => []
        end
        st (ruleShortener domain st).
Proof.
  revert st; unfold ruleShortener.
  apply (forFirst_emits _ _ _ (fun _ => [Shortener])); intros x _.
  emit Shortener.
Qed.

Lemma ruleKeywords_emits {P : Platform} (domain : str) (urlObj : URL) (st : Vars.t) :
  emits (if (2 <=? List.length (foundKeywords domain urlObj))%nat
         then [UrgentKeywords (foundKeywords domain urlObj)] else [])
        st (ruleKeywords domain urlObj st).
Proof.
  revert st; unfold ruleKeywords; apply when_emits.
  emit (UrgentKeywords (foundKeywords domain urlObj)).
Qed.

Lemma ruleIp_emits (domain : str) (st : Vars.t) :
  emits (if Regex.test Patterns.ipLiteral domain then [IpLiteral] else [])
        st (ruleIp domain st).
Proof.
  revert st; unfold ruleIp; apply when_emits; emit IpLiteral.
Qed.

Lemma rulePunycode_emits (domain : str) (st : Vars.t) :
  emits (if JS.includes `"xn--" domain then [Punycode] else [])
        st (rulePunycode domain st).
Proof.
  revert st; unfold rulePunycode; apply when_emits; emit Punycode.
Qed.

Lemma battery_emits {P : Platform} (u : str) (urlObj : URL) :
  emits (findingsOf u urlObj) initial (runRules (battery u urlObj) initial).
Proof.
  unfold findingsOf, battery, runRules; cbv zeta; cbn [fold_left].
  eapply emits_app; [apply ruleMisspelling_emits |].
  eapply emits_app; [apply ruleHomograph_emits |].
  eapply emits_app; [apply ruleHttps_emits |].
  eapply emits_app; [apply ruleSubdomain_emits |].
  eapply emits_app; [apply ruleLength_emits |].
  eapply emits_app; [apply ruleRedirect_emits |].
  eapply emits_app; [apply ruleNewDomain_emits |].
  eapply emits_app; [apply ruleDownload_emits |].
  eapply emits_app; [apply ruleBrand_emits |].
  eapply emits_app; [apply ruleTld_emits |].
  eapply emits_app; [apply ruleShortener_emits |].
  eapply emits_app; [apply ruleKeywords_emits |].
  eapply emits_app; [apply ruleIp_emits |].
  apply rulePunycode_emits.
Qed.

(** On a URL that parses, the threats and warnings of the result are
    exactly those of the findings the rules define, rule by rule in battery
    order and entry by entry in list order (or the no-threat pair when
    there is none), and the score is 100 minus their penalties, floored at
    0: a finding is reported if and only if its rule matches. *)
Theorem findings_exactly {P : Platform} (rnd : Random) (u : str) (urlObj : URL) :
  URL_parse u = Some urlObj ->
  let fs := match findingsOf u urlObj with
            | [] => [NoThreat]
            | f :: rest => f :: rest
            end in
  threats (analyzeUrl rnd u) = map threatOf fs
  /\ warnings (analyzeUrl rnd u) = map warningOf fs
  /\ score (analyzeUrl rnd u) = Z.max 0 (100 - totalPenalty (findingsOf u urlObj)).
Proof.
  intros Hparse.
  destruct (battery_emits u urlObj) as [Ht [Hw Hs]].
  cbn [initial Vars.threats Vars.warnings Vars.score app] in Ht, Hw, Hs.
  unfold analyzeUrl; cbn [threats warnings score].
  unfold finalVars; rewrite Hparse.
  unfold noThreats, clamp; cbn [Vars.threats Vars.warnings Vars.score].
  rewrite Ht, Hw, Hs.
  destruct (findingsOf u urlObj) as [| f rest];
    cbn [map app Vars.threats Vars.warnings Vars.score].
  - split; [vm_compute; reflexivity | split; [vm_compute; reflexivity | reflexivity]].
  - split; [reflexivity | split; reflexivity].
Qed.

Lemma findings_exactly_witness :
  let u := `"https://secure-paypal-login.tk/verify?confirm=1" in
  let urlObj := mkURL `"secure-paypal-login.tk" `"/verify" in
  Ref.parse u = Some urlObj
  /\ @findingsOf Ref.platform u urlObj
     = [ Impersonation `"paypal"; RiskyTld `".tk";
         UrgentKeywords [`"verify"; `"secure"; `"login"] ]
  /\ score (@analyzeUrl Ref.platform Ref.rnd u)
     = Z.max 0 (100 - totalPenalty (@findingsOf Ref.platform u urlObj)).
Proof.
  assert (H : Ref.parse `"https://secure-paypal-login.tk/verify?confirm=1"
              = Some (mkURL `"secure-paypal-login.tk" `"/verify"))
    by (vm_compute; reflexivity).
  split; [exact H | split; [vm_compute; reflexivity |]].
  exact (proj2 (proj2 (@findings_exactly Ref.platform Ref.rnd _ _ H))).
Defined.

(* ================================================================== *)
(** * The preview component: a target the encoder rejects *)

Lemma attempt_rejected (loads : str -> bool) (url : str) (i : nat) :
  Preview.encodeURIComponent (normalize url) = None ->
  Preview.attempt loads url i = None.
Proof.
  intros H; unfold Preview.attempt; cbv zeta.
  destruct i as [| [| [| [| i]]]];
    cbn [nth_error Preview.screenshotServices Preview.generateUrl];
    unfold Preview.template; rewrite ?H; try reflexivity.
  destruct i; reflexivity.
Qed.

(** A target with an unpaired surrogate makes [encodeURIComponent] throw
    inside the [try] block, which the component treats like a failed
    service: whatever the network would answer, the chain ends with the
    error "All preview services failed" and the earlier preview untouched. *)
Theorem rejected_target_fails_all (loads : str -> bool) (url : str) (fuel : nat)
        (st : Preview.State) :
  url <> [] -> (3 <= fuel)%nat ->
  Preview.encodeURIComponent (normalize url) = None ->
  Preview.generatePreview loads url fuel 0 st
  = {| Preview.previewUrl := Preview.previewUrl st;
       Preview.isLoading := false;
       Preview.error := Some `"All preview services failed";
       Preview.currentService := Preview.currentService st |}.
Proof.
  intros Hurl Hfuel H.
  destruct url as [| c url]; [contradiction |].
  assert (L : List.length Preview.screenshotServices = 4%nat) by reflexivity.
  destruct fuel as [| [| [| fuel]]]; try lia.
  destruct fuel as [| fuel];
    cbn [Preview.generatePreview]; rewrite !L, !(attempt_rejected loads _ _ H);
    reflexivity.
Qed.

Lemma rejected_target_fails_all_witness :
  let url := [55357%N] in
  url <> [] /\ (3 <= 3)%nat
  /\ Preview.encodeURIComponent (normalize url) = None
  /\ Preview.error
       (Preview.generatePreview (fun _ => true) url 3 0
          (Preview.mkState None false None 0))
     = Some `"All preview services failed".
Proof.
  assert (H1 : [55357%N] <> []) by discriminate.
  assert (H2 : (3 <= 3)%nat) by lia.
  assert (H3 : Preview.encodeURIComponent (normalize [55357%N]) = None)
    by (vm_compute; reflexivity).
  split; [exact H1 | split; [exact H2 | split; [exact H3 |]]].
  rewrite (rejected_target_fails_all (fun _ => true) _ _ _ H1 H2 H3).
  reflexivity.
Defined.

(* ================================================================== *)
(** * The file-download rule on addresses that end in ".com" *)

Lemma startsWith_split (p s : str) :
  JS.startsWith p s = true -> exists rest, s = p ++ rest.
Proof.
  revert s; induction p as [| x p IH]; intros s H.
  - exists s; reflexivity.
  - destruct s as [| y s]; cbn [JS.startsWith] in H; [discriminate |].
    apply andb_true_iff in H; destruct H as [H1 H2].
    apply N.eqb_eq in H1; subst y.
    destruct (IH s H2) as [rest ->]; exists rest; reflexivity.
Qed.

Lemma endsWith_split (p s : str) :
  JS.endsWith p s = true -> exists front, s = front ++ p.
Proof.
  unfold JS.endsWith; intros H.
  destruct (startsWith_split _ _ H) as [rest E].
  exists (rev rest).
  rewrite <- (rev_involutive s), E, rev_app_distr, rev_involutive; reflexivity.
Qed.

Lemma search_at_suffix (r : Regex.regex) (total : nat) (front back : str) :
  Regex.matchesAt r total back = true ->
  Regex.search r total (front ++ back) = true.
Proof.
  intros H; induction front as [| x front IH]; cbn [app].
  - destruct back; cbn [Regex.search]; now rewrite H.
  - cbn [Regex.search]; rewrite IH; apply orb_true_r.
Qed.

Lemma download_pattern_matches_dot_com (fullUrl : str) :
  JS.endsWith `".com" fullUrl = true ->
  existsb (fun pattern => Regex.test pattern fullUrl) Patterns.downloadPatterns = true.
Proof.
  intros H; destruct (endsWith_split _ _ H) as [front ->].
  unfold Patterns.downloadPatterns; cbn [existsb].
  apply orb_true_iff; left.
  unfold Regex.test; apply search_at_suffix.
  generalize (List.length (front ++ `".com")) as total; intros total.
  vm_compute; reflexivity.
Qed.

Lemma ruleDownload_hits (fullUrl : str) :
  existsb (fun pattern => Regex.test pattern fullUrl) Patterns.downloadPatterns = true ->
  forall st, hits (threatOf FileDownload) 60 st (ruleDownload fullUrl st).
Proof.
  intros H; apply existsb_exists in H; destruct H as [pattern [Hin Ht]].
  unfold ruleDownload.
  apply (forEach_hits _ _ _ _ pattern Hin).
  - intros y; appends FileDownload.
  - intros st; unfold when; rewrite Ht.
    apply (fire_hits_as FileDownload); reflexivity.
Qed.

(** The first file-download pattern tests the whole URL text for an
    executable extension at its end, and ".com" is one of them: every
    address whose text ends in ".com", such as a bare "example.com", is
    reported as a potential file download with score at most 40, and is
    DANGEROUS unless its host is an IP literal or punycode. *)
Theorem dot_com_address_is_download {P : Platform} (rnd : Random) (u : str)
        (urlObj : URL) :
  URL_parse u = Some urlObj ->
  JS.endsWith `".com" (toLowerCase u) = true ->
  In (threatOf FileDownload) (threats (analyzeUrl rnd u))
  /\ score (analyzeUrl rnd u) <= 40
  /\ (Regex.test Patterns.ipLiteral (toLowerCase (hostname urlObj)) = false ->
      JS.includes `"xn--" (toLowerCase (hostname urlObj)) = false ->
      riskLevel (analyzeUrl rnd u) = dangerous).
Proof.
  intros Hparse Hcom.
  pose proof (download_pattern_matches_dot_com _ Hcom) as Hd.
  assert (F : In (threatOf FileDownload) (Vars.threats (finalVars u))
              /\ Vars.score (finalVars u) <= 100 - 60
              /\ Vars.riskLevel (finalVars u) <> safe).
  { apply (finalVars_hits _ 60 u urlObj Hparse); [lia |].
    apply (battery_rule_hits _ _ u urlObj 7 (ruleDownload (toLowerCase u)));
      [reflexivity | now apply ruleDownload_hits]. }
  destruct F as [F1 [F2 _]].
  unfold analyzeUrl; cbn [threats score riskLevel].
  split; [exact F1 | split; [lia |]].
  intros Hip Hpuny.
  unfold finalVars; rewrite Hparse, noThreats_riskLevel.
  unfold clamp; cbn [Vars.riskLevel].
  unfold battery, runRules; cbv zeta; cbn [fold_left].
  rewrite rulePunycode_idle by exact Hpuny.
  rewrite ruleIp_idle by exact Hip.
  eapply stays_dangerous; [apply ruleKeywords_raises |].
  eapply stays_dangerous; [apply ruleShortener_raises |].
  eapply stays_dangerous; [apply ruleTld_raises |].
  eapply stays_dangerous; [apply ruleBrand_raises |].
  now apply ruleDownload_fires.
Qed.

Lemma dot_com_address_is_download_witness :
  let u := `"https://example.com" in
  Ref.parse u = Some (mkURL `"example.com" `"/")
  /\ JS.endsWith `".com" (Ref.lower u) = true
  /\ score (@analyzeUrl Ref.platform Ref.rnd u) <= 40.
Proof.
  assert (H1 : Ref.parse `"https://example.com" = Some (mkURL `"example.com" `"/"))
    by (vm_compute; reflexivity).
  assert (H2 : JS.endsWith `".com" (Ref.lower `"https://example.com") = true)
    by (vm_compute; reflexivity).
  split; [exact H1 | split; [exact H2 |]].
  exact (proj1 (proj2 (@dot_com_address_is_download Ref.platform Ref.rnd _ _ H1 H2))).
Defined.
